(** * manroland-parser: a shallow embedding of [index.js] and its properties

    The parser reads the rows of a manroland CSV export (as delivered by the
    CSV tokenizer: arrays of cells), classifies every row, projects data rows
    through a dictionary of logical field names, and hands the aggregated
    result to a completion callback.

    Modelling choices:
    - JavaScript primitive values are the inductive [value]; numbers are kept
      abstract behind the class [JsNumber], so that every statement holds for
      IEEE doubles as well as for the small integer instance used to run the
      model on concrete inputs;
    - plain objects used as string-keyed records are [gmap string value];
      reading an absent property yields [VUndef] (the properties that a
      record inherits from [Object.prototype] are not modelled, and the
      property names are ordinary ones);
    - arrays are lists; the dictionary sections are association lists in
      declaration order ([Object.keys] is the list of first components);
    - the stream plumbing ([pump], [iconv-lite], [csv-streamify]) is
      represented by what it delivers: the rows, then the end of the stream
      or an error; an exception of the row handler is caught by the
      pipeline, which ends with it as its error;
    - a function that may throw returns a [result];
    - strings are sequences of Latin-1 characters, one per byte: that is
      what the cells of the stream hold, which the pipeline decodes as
      [binary] before it re-encodes and tokenizes them;
    - the [debug] logging calls are left out, except for the argument of the
      first one, [path.basename(file.filename || file.path)], which throws
      when the stream object has neither property (Node 6 and later). *)

From stdpp Require Import base option list gmap strings pretty fin_maps.
From Stdlib Require Import Ascii String ZArith Lia.

Local Open Scope string_scope.
Local Open Scope list_scope.

(** ** Exceptions and the error monad *)

Inductive exn : Type :=
  | TypeError
  | AssertionError
  | Error (msg : string).

Inductive result (A : Type) : Type :=
  | Ok (a : A)
  | Throw (e : exn).
Arguments Ok {A} a.
Arguments Throw {A} e.

#[global] Instance result_ret : MRet result := λ A a, Ok a.
#[global] Instance result_bind : MBind result := λ A B f r,
  match r with
  | Ok a => f a
  | Throw e => Throw e
  end.

(** [Array.prototype.reduce] with an initial value, for arrays without holes:
    the callback receives the accumulator, the element and its index. *)
Fixpoint reduce_from {A B : Type} (f : B → A → nat → B) (i : nat) (l : list A) (acc : B) : B :=
  match l with
  | [] => acc
  | x :: l' => reduce_from f (S i) l' (f acc x i)
  end.

Definition reduce {A B : Type} (f : B → A → nat → B) (l : list A) (init : B) : B :=
  reduce_from f 0 l init.

(** The same loop when the callback may throw: the first exception leaves
    the loop. *)
Fixpoint reduceM {A B : Type} (f : B → A → result B) (l : list A) (acc : B) : result B :=
  match l with
  | [] => Ok acc
  | x :: l' => acc' ← f acc x; reduceM f l' acc'
  end.

(** ** Numbers *)

(** The operations on JavaScript numbers that the parser (and [is-number])
    relies on. *)
Class JsNumber (number : Type) : Type := {
  num_nan : number;
  num_zero : number;
  num_one : number;
  (** [+s] on a string. *)
  str_to_num : string → number;
  (** [(n - n + 1) >= 0]: neither [NaN] nor an infinity. *)
  num_finite : number → bool;
  num_is_zero : number → bool;
  num_is_nan : number → bool;
  (** [String(n)], used when a number serves as a property key. *)
  num_to_str : number → string;
}.

(** ** Strings

    Strings are sequences of Latin-1 characters (code points 0 to 255); the
    character classes and the case mapping below are the JavaScript ones
    on that range. *)

(** [\d] *)
Definition is_digit (c : ascii) : bool :=
  match c with
  | "0" | "1" | "2" | "3" | "4" | "5" | "6" | "7" | "8" | "9" => true
  | _ => false
  end%char.

(** [R] under the [i] flag. *)
Definition is_R (c : ascii) : bool :=
  match c with
  | "R" | "r" => true
  | _ => false
  end%char.

(** [[F]] under the [i] flag. *)
Definition is_F (c : ascii) : bool :=
  match c with
  | "F" | "f" => true
  | _ => false
  end%char.

(** The white space that [trim] strips: tab, line feed, vertical tab, form
    feed, carriage return, space and the no-break space U+00A0. *)
Definition is_space (c : ascii) : bool :=
  match c with
  | " " | "009" | "010" | "011" | "012" | "013" | "160" => true
  | _ => false
  end%char.

(** The lower-case mapping of one character: the capitals [A] to [Z] and
    the Latin-1 capitals U+00C0 to U+00DE, without the multiplication sign
    U+00D7, move up by 32; every other character stays. *)
Definition lower_char (c : ascii) : ascii :=
  let n := nat_of_ascii c in
  if ((65 <=? n)%nat && (n <=? 90)%nat)
     || ((192 <=? n)%nat && (n <=? 222)%nat && negb (n =? 215)%nat)
  then ascii_of_nat (n + 32) else c.

(** [s.toLowerCase()] *)
Fixpoint toLowerCase (s : string) : string :=
  match s with
  | EmptyString => EmptyString
  | String c s' => String (lower_char c) (toLowerCase s')
  end.

(** [s.replace('-', '')]: only the first hyphen goes. *)
Fixpoint replace_hyphen (s : string) : string :=
  match s with
  | EmptyString => EmptyString
  | String c s' => if Ascii.eqb c "-" then s' else String c (replace_hyphen s')
  end.

Fixpoint trim_start (s : string) : string :=
  match s with
  | EmptyString => EmptyString
  | String c s' => if is_space c then trim_start s' else s
  end.

Fixpoint trim_end (s : string) : string :=
  match s with
  | EmptyString => EmptyString
  | String c s' =>
      match trim_end s' with
      | EmptyString => if is_space c then EmptyString else String c EmptyString
      | t => String c t
      end
  end.

(** [s.trim()] *)
Definition trim (s : string) : string := trim_end (trim_start s).

(** [s.match(/\d[F]?/i)]: the leftmost digit, together with the character
    after it when that is an [F] in either case; [None] is JavaScript's
    [null]. Only element [0] of the match array is ever read. *)
Fixpoint match_paperType (s : string) : option string :=
  match s with
  | EmptyString => None
  | String c s' =>
      if is_digit c then
        Some (String c (match s' with
                        | String f _ => if is_F f then String f EmptyString else EmptyString
                        | EmptyString => EmptyString
                        end))
      else match_paperType s'
  end.

(** [s.match(/R\d{3}/gi)]: all matches from left to right, each search
    resuming behind the previous match; the empty list is JavaScript's
    [null]. *)
Fixpoint match_machine (s : string) : list string :=
  match s with
  | EmptyString => []
  | String r s1 =>
      match s1 with
      | String a (String b (String c rest)) =>
          if is_R r && is_digit a && is_digit b && is_digit c
          then String r (String a (String b (String c EmptyString))) :: match_machine rest
          else match_machine s1
      | _ => match_machine s1
      end
  end.

(** The regular expression [/R\d{3}/i] read at position [i] of [s], by
    character access: the yardstick for [match_machine]. *)
Definition machine_at (s : string) (i : nat) : bool :=
  match String.get i s, String.get (i + 1) s, String.get (i + 2) s, String.get (i + 3) s with
  | Some r, Some a, Some b, Some c => is_R r && is_digit a && is_digit b && is_digit c
  | _, _, _, _ => false
  end.

(** No character of [s] is a digit. *)
Definition no_digit (s : string) : Prop :=
  ∀ (i : nat) (c : ascii), String.get i s = Some c → is_digit c = false.

(** ** Machine name *)

Definition getMachineName (filename : option string) : string :=
  match filename with
  | None => ""
  | Some f =>
      if bool_decide (f = "") then ""
      else match match_machine f with
           | [] => ""
           | m :: _ => m
           end
  end.

(** ** The dictionary

    [import-dictionary.json] maps every logical field to the name of its
    source column (property [manroland]); the [secondary] section has three
    source columns per derived colour. The sections are kept in declaration
    order. *)

Record entry : Type := { manroland : string }.

Record lab_entry : Type := { act_L : entry; act_a : entry; act_b : entry }.

Record dictionary : Type := {
  meta : list (string * entry);
  data : list (string * entry);
  secondary : list (string * lab_entry);
}.

(** [getKeys] is [Object.keys], memoized on the identity of the section;
    the sections are frozen, so the cache is never stale. Where the code
    runs through [getKeys(dict)] and reads [dict[key]], the model runs
    through the entries of the section. *)
Definition getKeys {A : Type} (dict : list (string * A)) : list string := dict.*1.

(** ** Values *)

Inductive value (number : Type) : Type :=
  | VUndef
  | VNull
  | VBool (b : bool)
  | VNum (n : number)
  | VStr (s : string).
Arguments VUndef {number}.
Arguments VNull {number}.
Arguments VBool {number} b.
Arguments VNum {number} n.
Arguments VStr {number} s.

Section Parser.
Context {number : Type} `{!JsNumber number}.

Abbreviation val := (value number).
Abbreviation obj := (gmap string (value number)).

(** [o[k]] on a plain record. *)
Definition get (o : obj) (k : string) : val := default VUndef (o !! k).

(** [a[i]] on an array. *)
Definition nth_cell (a : list val) (i : nat) : val := default VUndef (a !! i).

(** [v === s] for a string literal [s]. *)
Definition is_str (v : val) (s : string) : bool :=
  match v with
  | VStr t => bool_decide (t = s)
  | _ => false
  end.

(** ToBoolean. *)
Definition truthy (v : val) : bool :=
  match v with
  | VUndef | VNull => false
  | VBool b => b
  | VNum n => negb (num_is_zero n || num_is_nan n)
  | VStr s => negb (bool_decide (s = ""))
  end.

(** ToPropertyKey on a primitive. *)
Definition to_key (v : val) : string :=
  match v with
  | VUndef => "undefined"
  | VNull => "null"
  | VBool true => "true"
  | VBool false => "false"
  | VNum n => num_to_str n
  | VStr s => s
  end.

(** Unary plus. *)
Definition to_number (v : val) : number :=
  match v with
  | VUndef => num_nan
  | VNull => num_zero
  | VBool true => num_one
  | VBool false => num_zero
  | VNum n => n
  | VStr s => str_to_num s
  end.

(** [is-number] 2.x: the argument is a number or a string, its numeric value
    is finite, and it is not the empty string. *)
Definition isNumber (v : val) : bool :=
  match v with
  | VNum _ | VStr _ =>
      num_finite (to_number v) && negb (is_str v "")
  | _ => false
  end.

(** ** Header mapper

    Both arguments are arrays by their type; the version on the heap below
    has the two assertions. *)

Definition mapToHeaders (row headers : list val) : obj :=
  reduce (λ (o : obj) (v : val) (i : nat), <[to_key (nth_cell headers i) := v]> o) row ∅.

(** ** Field normalizer *)

(** The projection loop of [normalizeMeta]:
    [getKeys(dict).forEach((key) => output[key] = input[dict[key].manroland])].
    Both arguments are objects by their type, so the two assertions at the
    head of [normalizeMeta] hold. *)
Definition projectMeta (input : obj) (dict : list (string * entry)) : obj :=
  foldl (λ (output : obj) '(key, e), <[key := get input (manroland e)]> output) ∅ dict.

(** [output.paperType.match(/\d[F]?/i)[0]]; indexing [null] throws. *)
Definition normalizePaperType (output : obj) : result obj :=
  match get output "paperType" with
  | VStr s =>
      match match_paperType s with
      | Some m => Ok (<["paperType" := VStr m]> output)
      | None => Throw TypeError
      end
  | _ => Ok output
  end.

Definition normalizeSheet (output : obj) : obj :=
  match get output "sheet" with
  | VStr s => <["sheet" := VStr (trim (replace_hyphen s))]> output
  | _ => output
  end.

Definition normalizeMeta (input : obj) (dict : list (string * entry)) : result obj :=
  output ← normalizePaperType (projectMeta input dict);
  Ok (normalizeSheet output).

(** [value.toLowerCase()]: reading the method off [undefined] or [null]
    throws, and so does calling it on a boolean or a number, which have no
    such method. *)
Definition call_toLowerCase (v : val) : result val :=
  match v with
  | VStr s => Ok (VStr (toLowerCase s))
  | _ => Throw TypeError
  end.

(** The callback of the [reduce] in [normalizeDataRow], for the dictionary
    entry [dict[key]]. *)
Definition dataRow_step (row : obj) (o : obj) (p : string * entry) : result obj :=
  let '(key, e) := p in
  let value := get row (manroland e) in
  if isNumber value then Ok (<[key := VNum (to_number value)]> o)
  else if bool_decide (key = "color") then
    lowered ← call_toLowerCase value; Ok (<[key := lowered]> o)
  else Ok (<[key := value]> o).

Definition normalizeDataRow (row : obj) (dict : list (string * entry)) : result obj :=
  reduceM (dataRow_step row) dict ∅.

(** ** Legacy schema reconciler *)

Definition is_undefined (v : val) : bool :=
  match v with
  | VUndef => true
  | _ => false
  end.

Definition correctOldTonval (row : obj) : obj :=
  if negb (is_undefined (get row "tonVal40")) then row
  else
    let newRow := <["tonVal40" := get row "tonVal50"]> row in
    delete "tonVal20" (delete "tonVal50" newRow).

(** ** Secondary-colour expander *)

Definition tryNumber (v : val) : val :=
  if isNumber v then VNum (to_number v) else v.

Definition normalizeSecondaryColorRow (row : obj) (dict : list (string * lab_entry)) : list obj :=
  List.filter
    (λ r : obj, truthy (get r "act_L") && truthy (get r "act_a") && truthy (get r "act_b"))
    (map (λ '(color, e),
       <["act_b" := tryNumber (get row (manroland (act_b e)))]>
       (<["act_a" := tryNumber (get row (manroland (act_a e)))]>
       (<["act_L" := tryNumber (get row (manroland (act_L e)))]>
       (<["color" := VStr (toLowerCase color)]>
       (<["colorName" := VStr color]> (∅ : obj)))))) dict).

Definition enhanceSecondaryColorRow (secondaryColorRow normalizedRow : obj) : obj :=
  <["zoneNo" := get normalizedRow "zoneNo"]>
  (<["measuringNo" := get normalizedRow "measuringNo"]>
  (<["pUnitNo" := get normalizedRow "pUnitNo"]> secondaryColorRow)).

(** ** Row classifier

    The rows are arrays by their type, so the [Array.isArray] assertions of
    the three classifiers hold. *)

Definition skip (row : list val) : bool :=
  is_str (nth_cell row 0) "Raster-Percent :" || is_str (nth_cell row 1) "GB".

Definition isSecondaryColorRow (row : list val) : bool :=
  is_str (nth_cell row 1) "T".

Definition isHeaderRow (row : list val) : bool :=
  is_str (nth_cell row 0) "Protocolled Measuring No".

(** ** Stream driver *)

(** The variables that [onData] closes over. *)
Record state : Type := {
  st_meta : obj;
  st_values : list obj;
  st_headers : list val;
  st_isData : bool;
}.

Definition initial : state :=
  {| st_meta := ∅; st_values := []; st_headers := []; st_isData := false |}.

Definition onData (D : dictionary) (st : state) (row : list val) : result state :=
  if skip row then Ok st
  else if st_isData st then
    let mapped := mapToHeaders row (st_headers st) in
    dataRow ← normalizeDataRow mapped (data D);
    let normalized := correctOldTonval dataRow in
    if isSecondaryColorRow row then
      Ok {| st_meta := st_meta st;
            st_values := st_values st ++
              map (λ secondaryColorRow, enhanceSecondaryColorRow secondaryColorRow normalized)
                  (normalizeSecondaryColorRow mapped (secondary D));
            st_headers := st_headers st;
            st_isData := st_isData st |}
    else
      Ok {| st_meta := st_meta st;
            st_values := st_values st ++ [normalized];
            st_headers := st_headers st;
            st_isData := st_isData st |}
  else if isHeaderRow row then
    Ok {| st_meta := st_meta st;
          st_values := st_values st;
          st_headers := st_headers st ++ row;
          st_isData := true |}
  else
    Ok {| st_meta := <[to_key (nth_cell row 0) := nth_cell row 1]> (st_meta st);
          st_values := st_values st;
          st_headers := st_headers st;
          st_isData := st_isData st |}.

(** The input of [parser]: the two properties read off the stream object,
    the rows that the decode and tokenize pipeline delivers, and the error
    with which that pipeline ends, if any. *)
Record file : Type := {
  filename : option string;
  path : option string;
  rows : list (list val);
  upstream_error : option exn;
}.

(** [file.filename || file.path] *)
Definition filename_or_path (f : file) : option string :=
  match filename f with
  | Some s => if bool_decide (s = "") then path f else Some s
  | None => path f
  end.

Record parse_result : Type := { res_meta : obj; res_values : list obj }.

(** One invocation of the completion callback: [cb(err)] or [cb(null, res)]. *)
Inductive cb_call : Type :=
  | CbError (err : exn)
  | CbResult (res : parse_result).

(** What a run of [parser] amounts to: the invocations of the callback, in
    order, and the exception that escaped uncaught, if any. *)
Record outcome : Type := { calls : list cb_call; uncaught : option exn }.

Definition maker : string := "manroland".

(** [parser] first evaluates [path.basename(file.filename || file.path)] for
    its log line, which throws a [TypeError] out of the call when that
    value is [undefined]. An exception of [onData] is caught inside the
    pipeline and reaches the completion handler as the pipeline's error;
    an exception of [normalizeMeta] is thrown by the completion handler
    itself and escapes. *)
Definition parser (D : dictionary) (f : file) : outcome :=
  match filename_or_path f with
  | None => {| calls := []; uncaught := Some TypeError |}
  | Some _ =>
      let machine := getMachineName (filename_or_path f) in
      match reduceM (onData D) (rows f) initial with
      | Throw e => {| calls := [CbError e]; uncaught := None |}
      | Ok st =>
          match upstream_error f with
          | Some err => {| calls := [CbError err]; uncaught := None |}
          | None =>
              if bool_decide (List.length (st_values st) = 0) then
                {| calls := [CbError (Error "InvalidInput")]; uncaught := None |}
              else
                match normalizeMeta (st_meta st) (meta D) with
                | Throw e => {| calls := []; uncaught := Some e |}
                | Ok normalized =>
                    let normalizedMetadata : obj :=
                      normalized ∪ <["machine" := VStr machine]> ({[ "maker" := VStr maker ]}) in
                    {| calls := [CbResult {| res_meta := normalizedMetadata;
                                             res_values := st_values st |}];
                       uncaught := None |}
                end
          end
      end
  end.

(** ** The header mapper on a heap

    To speak about what [mapToHeaders] does to its arguments, arrays and
    objects live on a heap and are passed by reference. *)

Inductive cell : Type :=
  | CArr (a : list val)
  | CObj (o : obj).

Abbreviation heap := (gmap positive cell).

(** [Array.isArray(x)] for a reference [x]. *)
Definition isArray (σ : heap) (l : positive) : bool :=
  match σ !! l with
  | Some (CArr _) => true
  | _ => false
  end.

Definition array_at (σ : heap) (l : positive) : list val :=
  match σ !! l with
  | Some (CArr a) => a
  | _ => []
  end.

(** [o[k] = v] for a reference [o] to an object. *)
Definition store (o : positive) (k : string) (v : val) (σ : heap) : heap :=
  match σ !! o with
  | Some (CObj m) => <[o := CObj (<[k := v]> m)]> σ
  | _ => σ
  end.

(** One turn of [row.reduce]: the element [row[i]] is read from the heap and
    the callback stores it under [headers[i]], read from the heap as well. *)
Definition mapToHeaders_step (row headers o : positive) (σ : heap) (i : nat) : heap :=
  match array_at σ row !! i with
  | Some v => store o (to_key (nth_cell (array_at σ headers) i)) v σ
  | None => σ
  end.

Definition mapToHeaders_heap (row headers : positive) (σ : heap) : result positive * heap :=
  if negb (isArray σ row) then (Throw AssertionError, σ)
  else if negb (isArray σ headers) then (Throw AssertionError, σ)
  else
    let o := fresh (dom σ) in
    let len := List.length (array_at σ row) in
    (Ok o, foldl (mapToHeaders_step row headers o) (<[o := CObj ∅]> σ) (seq 0 len)).

End Parser.

(** ** An integer instance of the numbers

    The integer fragment of the JavaScript numbers, enough to run the model
    on inputs whose numeric cells are optionally signed runs of decimal
    digits below 2^53. Any other string reads as [NaN] here, so outside that
    fragment (blank strings, decimals, exponents, hexadecimal literals,
    larger integers) this is not JavaScript's unary plus. No general
    statement depends on this instance. *)

Inductive int_number : Type :=
  | INaN
  | IInt (z : Z).

Fixpoint digits_value (s : string) (acc : N) : option N :=
  match s with
  | EmptyString => Some acc
  | String c s' =>
      if is_digit c then digits_value s' (10 * acc + (N_of_ascii c - 48))%N else None
  end.

Definition unsigned_of_string (s : string) : option N :=
  match s with
  | EmptyString => None
  | _ => digits_value s 0%N
  end.

Definition int_of_string (s : string) : int_number :=
  match s with
  | EmptyString => IInt 0
  | String "-" s' =>
      match unsigned_of_string s' with
      | Some n => IInt (- Z.of_N n)
      | None => INaN
      end
  | String "+" s' =>
      match unsigned_of_string s' with
      | Some n => IInt (Z.of_N n)
      | None => INaN
      end
  | _ =>
      match unsigned_of_string s with
      | Some n => IInt (Z.of_N n)
      | None => INaN
      end
  end.

#[global] Instance int_JsNumber : JsNumber int_number := {|
  num_nan := INaN;
  num_zero := IInt 0;
  num_one := IInt 1;
  str_to_num := int_of_string;
  num_finite := λ n, match n with INaN => false | IInt _ => true end;
  num_is_zero := λ n, match n with IInt 0 => true | _ => false end;
  num_is_nan := λ n, match n with INaN => true | IInt _ => false end;
  num_to_str := λ n, match n with INaN => "NaN" | IInt z => pretty z end;
|}.

(** ** A sample dictionary *)

Definition lab (l a b : string) : lab_entry :=
  {| act_L := {| manroland := l |};
     act_a := {| manroland := a |};
     act_b := {| manroland := b |} |}.

(** Modelled from the spec: [import-dictionary.json] is not part of the
    sources at hand. The logical names are those that the tests read off the
    results ([jobNo], [paperType], [sheet], [color], [measuringNo],
    [tonVal40], ...), the derived colours are the [CM], [MY] and [CY] of the
    unit test of [normalizeSecondaryColorRow] with their source columns; the
    other source column names are placeholders. The general statements
    below hold for every dictionary; this one serves to run the parser. *)
Definition DICTIONARY : dictionary := {|
  meta := [
    ("jobNo", {| manroland := "Job No" |});
    ("paperType", {| manroland := "Paper Type" |});
    ("sheet", {| manroland := "Sheet" |})
  ];
  data := [
    ("measuringNo", {| manroland := "Protocolled Measuring No" |});
    ("color", {| manroland := "ColorName" |});
    ("pUnitNo", {| manroland := "Printing Unit" |});
    ("zoneNo", {| manroland := "Zone" |});
    ("tonVal20", {| manroland := "Tone Value 20" |});
    ("tonVal40", {| manroland := "Tone Value 40" |});
    ("tonVal50", {| manroland := "Tone Value 50" |});
    ("tonVal80", {| manroland := "Tone Value 80" |})
  ];
  secondary := [
    ("CM", lab "L-Value T(C+M) - Solid Tone" "a-Value T(C+M) - Solid Tone"
               "b-Value T(C+M) - Solid Tone");
    ("MY", lab "L-Value T(M+Y) - Solid Tone" "a-Value T(M+Y) - Solid Tone"
               "b-Value T(M+Y) - Solid Tone");
    ("CY", lab "L-Value T(C+Y) - Solid Tone" "a-Value T(C+Y) - Solid Tone"
               "b-Value T(C+Y) - Solid Tone")
  ];
|}.

(** ** Sample inputs

    The inputs of the unit tests, and a few small streams. *)

Definition str (s : string) : value int_number := VStr s.

(** [{ Foo: 'bar', baz: true }] and [{ foo: { manroland: 'Foo' } }] *)
Definition test_meta_input : gmap string (value int_number) :=
  <["baz" := VBool true]> {[ "Foo" := str "bar" ]}.

Definition test_meta_dict : list (string * entry) :=
  [("foo", {| manroland := "Foo" |})].

Definition test_data_row : gmap string (value int_number) :=
  <["baz" := VBool true]> (<["Foo" := str "Bar"]>
  (<["Measuring Unit" := str "1"]> {[ "ColorName" := str "BLK" ]})).

Definition test_data_dict : list (string * entry) :=
  [("color", {| manroland := "ColorName" |});
   ("measuringUnit", {| manroland := "Measuring Unit" |});
   ("foo", {| manroland := "Foo" |})].

Definition paperType_dict : list (string * entry) :=
  [("paperType", {| manroland := "paperType" |})].

(** A row of the new schema whose [tonVal40] is the number zero. *)
Definition new_schema_row : gmap string (value int_number) :=
  <["tonVal50" := VNum (IInt 7)]> {[ "tonVal40" := VNum (IInt 0) ]}.

(** A row of the old schema, as [normalizeDataRow] leaves it. *)
Definition old_schema_row : gmap string (value int_number) :=
  <["color" := str "cyn"]> (<["tonVal20" := VNum (IInt 21)]>
  (<["tonVal50" := VNum (IInt 55)]> {[ "tonVal40" := VUndef ]})).

Definition secondary_row : gmap string (value int_number) :=
  <["L-Value T(C+Y) - Solid Tone" := VNum (IInt 3)]>
  (<["b-Value T(C+M) - Solid Tone" := str "17"]>
  (<["a-Value T(C+M) - Solid Tone" := str "15"]>
  {[ "L-Value T(C+M) - Solid Tone" := VNum (IInt 1) ]})).

Definition secondary_CM : gmap string (value int_number) :=
  <["act_b" := VNum (IInt 17)]> (<["act_a" := VNum (IInt 15)]>
  (<["act_L" := VNum (IInt 1)]> (<["color" := str "cm"]> {[ "colorName" := str "CM" ]}))).

Definition header_row : list (value int_number) :=
  [str "Protocolled Measuring No"; str "ColorName"; str "Zone"; str "Tone Value 50"].

(** Two metadata lines, the header row and one data row. *)
Definition good_file : @file int_number := {|
  filename := Some "R508_12-07-19_12-1119.csv";
  path := None;
  rows := [
    [str "Job No"; str "12-1119"];
    [str "Paper Type"; str "4 (bar)"];
    header_row;
    [str "1"; str "CYN"; str "3"; str "55"]
  ];
  upstream_error := None;
|}.



(** A stream whose second data row has an empty colour cell. *)
Definition blank_color_file : @file int_number := {|
  filename := Some "R508_12-07-19_12-1119.csv";
  path := None;
  rows := [
    header_row;
    [str "1"; str "CYN"; str "3"; str "55"];
    [str "2"; VNull; str "3"; str "56"];
    [str "3"; str "MGT"; str "3"; str "57"]
  ];
  upstream_error := None;
|}.

(** The state of the driver behind the header row and one data row. *)
Definition after_first_row : @state int_number :=
  match reduceM (onData DICTIONARY) (take 2 (rows blank_color_file)) initial with
  | Ok st => st
  | Throw _ => initial
  end.


(** A heap with a row array and a headers array. *)
Definition two_arrays : gmap positive (@cell int_number) :=
  <[2%positive := CArr [str "foo"; str "bar"]]> {[ 1%positive := CArr [VNum (IInt 1); VNum (IInt 2)] ]}.

(** ** Notions used by the further statements *)

(** No character of [s] is a hyphen. *)
Definition no_hyphen (s : string) : Prop :=
  ∀ (i : nat) (c : ascii), String.get i s = Some c → c ≠ "-"%char.

Section Notions.
Context {number : Type} `{!JsNumber number}.

(** The same stream object with other rows. *)
Definition with_rows (f : @file number) (rs : list (list (value number))) : @file number :=
  {| filename := filename f; path := path f; rows := rs;
     upstream_error := upstream_error f |}.

(** A row that the driver, before it has seen the header row, either skips
    or takes for a line of metadata. *)
Definition prelude_row (row : list (value number)) : Prop :=
  skip row = true ∨ isHeaderRow row = false.

(** The object literal that [normalizeSecondaryColorRow] builds for the
    derived colour [color] with the dictionary entry [e], before filtering. *)
Definition secondary_candidate (row : gmap string (value number)) (color : string)
    (e : lab_entry) : gmap string (value number) :=
  <["act_b" := tryNumber (get row (manroland (act_b e)))]>
  (<["act_a" := tryNumber (get row (manroland (act_a e)))]>
  (<["act_L" := tryNumber (get row (manroland (act_L e)))]>
  (<["color" := VStr (toLowerCase color)]>
  (<["colorName" := VStr color]> ∅)))).

(** The test of the [filter] in [normalizeSecondaryColorRow]. *)
Definition all_act_truthy (r : gmap string (value number)) : bool :=
  truthy (get r "act_L") && truthy (get r "act_a") && truthy (get r "act_b").

End Notions.

(** Further sample inputs. *)

Definition meta_stream : list (list (value int_number)) :=
  [ [str "Job No"; str "12-0001"];
    [str "Raster-Percent :"; str "80"];
    [str "Job No"; str "12-1119"];
    [str "Paper Type"; str "4 (bar)"];
    header_row;
    [str "Job No"; str "CYN"; str "3"; str "55"] ].

Definition skipping_file : @file int_number := {|
  filename := None;
  path := Some "R505_13-04-16.csv";
  rows := [
    [str "Job No"; str "12-1119"];
    [str "Raster-Percent :"; str "80"];
    header_row;
    [str "9"; str "GB"; str "3"; str "1"];
    [str "1"; str "CYN"; str "3"; str "55"]
  ];
  upstream_error := None;
|}.

Definition headerless_file : @file int_number := {|
  filename := Some "R508_13-02-06.csv";
  path := None;
  rows := [
    [str "Job No"; str "12-1119"];
    [str "Raster-Percent :"; str "80"];
    [str "1"; str "CYN"; str "3"; str "55"]
  ];
  upstream_error := None;
|}.

(** The state of the driver behind the header row. *)
Definition after_header : @state int_number :=
  {| st_meta := {[ "Job No" := str "12-1119" ]}; st_values := [];
     st_headers := header_row; st_isData := true |}.

Definition primary_rows : list (list (value int_number)) :=
  [ [str "1"; str "CYN"; str "3"; str "55"];
    [str "Raster-Percent :"; str "80"];
    [str "2"; str "MGT"; str "3"; str "56"] ].

Definition secondary_headers : list (value int_number) :=
  [str "Protocolled Measuring No"; str "ColorName"; str "Zone";
   str "L-Value T(C+M) - Solid Tone"; str "a-Value T(C+M) - Solid Tone";
   str "b-Value T(C+M) - Solid Tone"].

Definition after_secondary_header : @state int_number :=
  {| st_meta := ∅; st_values := []; st_headers := secondary_headers; st_isData := true |}.

Definition secondary_cells : list (value int_number) :=
  [str "7"; str "T"; str "3"; str "41"; str "15"; str "17"].

(** The result that the parse of [good_file] delivers. *)
Definition good_result : @parse_result int_number :=
  match calls (parser DICTIONARY good_file) with
  | [CbResult res] => res
  | _ => {| res_meta := ∅; res_values := [] |}
  end.

(** The state of the driver at the end of [meta_stream]. *)
Definition meta_final : @state int_number :=
  match reduceM (onData DICTIONARY) meta_stream initial with
  | Ok st => st
  | Throw _ => initial
  end.

(** The state of the driver behind [primary_rows]. *)
Definition after_primary_rows : @state int_number :=
  match reduceM (onData DICTIONARY) primary_rows after_header with
  | Ok st => st
  | Throw _ => initial
  end.

(** The state of the driver behind [secondary_cells]. *)
Definition after_secondary_cells : @state int_number :=
  match onData DICTIONARY after_secondary_header secondary_cells with
  | Ok st => st
  | Throw _ => initial
  end.

Definition sheet_dict : list (string * entry) :=
  [("sheet", {| manroland := "sheet" |})].

(** The records that the normalizers return on the sample inputs. *)

Definition returned (r : result (gmap string (value int_number))) : gmap string (value int_number) :=
  match r with
  | Ok out => out
  | Throw _ => ∅
  end.

Definition test_data_out : gmap string (value int_number) :=
  returned (normalizeDataRow test_data_row test_data_dict).

Definition test_meta_out : gmap string (value int_number) :=
  returned (normalizeMeta test_meta_input test_meta_dict).

Definition sheet_out : gmap string (value int_number) :=
  returned (normalizeMeta {[ "sheet" := str "1 - " ]} sheet_dict).

(** A row whose colour is [GRÜN], the capital U with diaeresis being the
    one character U+00DC that the binary decoding yields. *)
Definition gruen_row : gmap string (value int_number) :=
  {[ "ColorName" := str (String "G" (String "R" (String "220" (String "N" EmptyString)))) ]}.

Definition gruen_out : gmap string (value int_number) :=
  returned (normalizeDataRow gruen_row test_data_dict).

(** The sheet number [5-] between two no-break spaces U+00A0. *)
Definition nbsp_sheet : string :=
  String "160" (String "5" (String "-" (String "160" EmptyString))).

Definition nbsp_sheet_out : gmap string (value int_number) :=
  returned (normalizeMeta {[ "sheet" := str nbsp_sheet ]} sheet_dict).

Definition first_row_out : gmap string (value int_number) :=
  returned (normalizeDataRow (mapToHeaders [str "1"; str "CYN"; str "3"; str "55"] header_row)
              (data DICTIONARY)).

(** * Properties *)

Section Properties.
Context {number : Type} `{!JsNumber number}.

Abbreviation val := (value number).
Abbreviation obj := (gmap string (value number)).
Abbreviation heap := (gmap positive (@cell number)).

(** ** Reading properties *)

Lemma get_lookup (o : obj) (k : string) (v : val) :
  o !! k = Some v → get o k = v.
Proof. unfold get. by intros ->. Qed.

Lemma get_absent (o : obj) (k : string) :
  o !! k = None → get o k = VUndef.
Proof. unfold get. by intros ->. Qed.

Lemma get_defined (o : obj) (k : string) :
  get o k ≠ VUndef → o !! k = Some (get o k).
Proof. unfold get. destruct (o !! k); simpl; [done | congruence]. Qed.

Lemma get_insert_eq (o : obj) (k : string) (v : val) :
  get (<[k := v]> o) k = v.
Proof. apply get_lookup, lookup_insert_eq. Qed.

Lemma get_insert_ne (o : obj) (k k' : string) (v : val) :
  k ≠ k' → get (<[k := v]> o) k' = get o k'.
Proof. intros Hne. unfold get. by rewrite lookup_insert_ne. Qed.

(** ** The loops *)

Lemma reduce_from_snoc {A B : Type} (f : B → A → nat → B) (l : list A) (x : A) (i : nat) (acc : B) :
  reduce_from f i (l ++ [x]) acc = f (reduce_from f i l acc) x (i + List.length l).
Proof.
  revert i acc. induction l as [|y l IH]; intros i acc; simpl.
  - by rewrite Nat.add_0_r.
  - rewrite IH. f_equal. lia.
Qed.

Lemma reduceM_app {A B : Type} (f : B → A → result B) (l1 l2 : list A) (acc : B) :
  reduceM f (l1 ++ l2) acc = acc' ← reduceM f l1 acc; reduceM f l2 acc'.
Proof.
  revert acc. induction l1 as [|x l1 IH]; intros acc; simpl; [done|].
  destruct (f acc x) as [acc'|e]; simpl; [apply IH | done].
Qed.

(** ** Key sets of the normalized records *)

Lemma projectMeta_dom_from (input : obj) (dict : list (string * entry)) (init : obj) :
  dom (foldl (λ (output : obj) '(key, e), <[key := get input (manroland e)]> output) init dict)
  = dom init ∪ list_to_set dict.*1.
Proof.
  revert init. induction dict as [|[key e] dict IH]; intros init; simpl.
  - set_solver.
  - rewrite IH, dom_insert_L. set_solver.
Qed.

Lemma projectMeta_dom (input : obj) (dict : list (string * entry)) :
  dom (projectMeta input dict) = list_to_set dict.*1.
Proof. unfold projectMeta. rewrite projectMeta_dom_from. set_solver. Qed.

Lemma insert_present_dom (o : obj) (k s : string) (w : val) :
  get o k = VStr s → dom (<[k := w]> o) = dom o.
Proof.
  intros Hk. rewrite dom_insert_L.
  assert (k ∈ dom o); [|set_solver].
  apply elem_of_dom. rewrite get_defined; [done | by rewrite Hk].
Qed.

Lemma normalizePaperType_dom (output out : obj) :
  normalizePaperType output = Ok out → dom out = dom output.
Proof.
  unfold normalizePaperType.
  destruct (get output "paperType") as [| | | |s] eqn:Hp; try (by intros [= <-]).
  destruct (match_paperType s); [|done].
  intros [= <-]. by eapply insert_present_dom.
Qed.

Lemma normalizeSheet_dom (output : obj) :
  dom (normalizeSheet output) = dom output.
Proof.
  unfold normalizeSheet.
  destruct (get output "sheet") eqn:Hs; try done.
  by eapply insert_present_dom.
Qed.

Lemma normalizeMeta_dom (input : obj) (dict : list (string * entry)) (out : obj) :
  normalizeMeta input dict = Ok out → dom out = list_to_set dict.*1.
Proof.
  unfold normalizeMeta.
  destruct (normalizePaperType (projectMeta input dict)) as [o|] eqn:Hp; simpl; [|done].
  intros [= <-]. rewrite normalizeSheet_dom.
  rewrite (normalizePaperType_dom _ _ Hp). apply projectMeta_dom.
Qed.

Lemma dataRow_step_dom (row o o' : obj) (key : string) (e : entry) :
  dataRow_step row o (key, e) = Ok o' → dom o' = {[key]} ∪ dom o.
Proof.
  unfold dataRow_step.
  destruct (isNumber _); [intros [= <-]; apply dom_insert_L|].
  case_bool_decide.
  - destruct (call_toLowerCase _); simpl; [|done].
    intros [= <-]. apply dom_insert_L.
  - intros [= <-]. apply dom_insert_L.
Qed.

Lemma dataRow_loop_dom (row : obj) (dict : list (string * entry)) (acc out : obj) :
  reduceM (dataRow_step row) dict acc = Ok out → dom out = dom acc ∪ list_to_set dict.*1.
Proof.
  revert acc. induction dict as [|[key e] dict IH]; intros acc; cbn [reduceM].
  - intros [= <-]. set_solver.
  - destruct (dataRow_step row acc (key, e)) as [acc'|] eqn:Hstep; simpl; [|done].
    intros Hout. rewrite (IH _ Hout), (dataRow_step_dom _ _ _ _ _ Hstep). set_solver.
Qed.

Lemma normalizeDataRow_dom (row : obj) (dict : list (string * entry)) (out : obj) :
  normalizeDataRow row dict = Ok out → dom out = list_to_set dict.*1.
Proof.
  unfold normalizeDataRow. intros Hout.
  rewrite (dataRow_loop_dom _ _ _ _ Hout). set_solver.
Qed.

(** C2. Whenever [normalizeMeta] or [normalizeDataRow] returns a record for
    an input [I] and a dictionary section [D], the keys of that record are
    exactly the logical keys declared in [D], whatever other keys [I] has. *)
Theorem normalize_key_set (I : obj) (D : list (string * entry)) :
  (∀ out : obj, normalizeMeta I D = Ok out → dom out = list_to_set (getKeys D)) ∧
  (∀ out : obj, normalizeDataRow I D = Ok out → dom out = list_to_set (getKeys D)).
Proof. split; intros out; [apply normalizeMeta_dom | apply normalizeDataRow_dom]. Qed.

(** ** The legacy schema reconciler *)

Lemma is_undefined_true (v : val) : is_undefined v = true ↔ v = VUndef.
Proof. destruct v; simpl; split; congruence. Qed.

Lemma is_undefined_false (v : val) : is_undefined v = false ↔ v ≠ VUndef.
Proof. destruct v; simpl; split; congruence. Qed.

Lemma correctOldTonval_new (r : obj) :
  get r "tonVal40" ≠ VUndef → correctOldTonval r = r.
Proof.
  intros Hdef. unfold correctOldTonval.
  apply is_undefined_false in Hdef. by rewrite Hdef.
Qed.

Lemma correctOldTonval_old (r : obj) :
  get r "tonVal40" = VUndef →
  correctOldTonval r
  = delete "tonVal20" (delete "tonVal50" (<["tonVal40" := get r "tonVal50"]> r)).
Proof.
  intros Hundef. unfold correctOldTonval.
  apply is_undefined_true in Hundef. by rewrite Hundef.
Qed.

(** C3. A row whose [tonVal40] is defined comes back unchanged. Any other
    row comes back with [tonVal40] holding what was under [tonVal50],
    without the keys [tonVal50] and [tonVal20], and with every other field
    as it was. *)
Theorem correctOldTonval_spec (r : obj) :
  (get r "tonVal40" ≠ VUndef → correctOldTonval r = r) ∧
  (get r "tonVal40" = VUndef →
     correctOldTonval r !! "tonVal40" = Some (get r "tonVal50") ∧
     correctOldTonval r !! "tonVal50" = None ∧
     correctOldTonval r !! "tonVal20" = None ∧
     ∀ k : string, k ≠ "tonVal40" → k ≠ "tonVal50" → k ≠ "tonVal20" →
       correctOldTonval r !! k = r !! k).
Proof.
  split; [apply correctOldTonval_new|].
  intros Hundef. rewrite (correctOldTonval_old _ Hundef).
  repeat split.
  - rewrite !lookup_delete_ne by done. apply lookup_insert_eq.
  - rewrite lookup_delete_ne by done. apply lookup_delete_eq.
  - apply lookup_delete_eq.
  - intros k H40 H50 H20.
    rewrite !lookup_delete_ne by done. by rewrite lookup_insert_ne.
Qed.

(** C8. Correcting a row twice is the same as correcting it once. *)
Theorem correctOldTonval_idempotent (r : obj) :
  correctOldTonval (correctOldTonval r) = correctOldTonval r.
Proof.
  destruct (is_undefined (get r "tonVal40")) eqn:Hundef;
    [apply is_undefined_true in Hundef | apply is_undefined_false in Hundef].
  2: { by rewrite !(correctOldTonval_new r Hundef). }
  rewrite (correctOldTonval_old r Hundef).
  set (r' := delete "tonVal20" (delete "tonVal50" (<["tonVal40" := get r "tonVal50"]> r))).
  assert (H40 : r' !! "tonVal40" = Some (get r "tonVal50")).
  { unfold r'. rewrite !lookup_delete_ne by done. apply lookup_insert_eq. }
  assert (H50 : r' !! "tonVal50" = None).
  { unfold r'. rewrite lookup_delete_ne by done. apply lookup_delete_eq. }
  assert (H20 : r' !! "tonVal20" = None).
  { unfold r'. apply lookup_delete_eq. }
  destruct (is_undefined (get r' "tonVal40")) eqn:Hundef';
    [apply is_undefined_true in Hundef' | apply is_undefined_false in Hundef'].
  2: { by apply correctOldTonval_new. }
  rewrite (correctOldTonval_old r' Hundef').
  rewrite (get_absent _ _ H50).
  rewrite (get_lookup _ _ _ H40) in Hundef'. rewrite Hundef' in H40.
  rewrite (insert_id _ _ _ H40).
  rewrite (delete_id r' "tonVal50") by done.
  by apply delete_id.
Qed.

(** ** The header mapper *)

Lemma mapToHeaders_snoc (r h : list val) (x : val) :
  mapToHeaders (r ++ [x]) h
  = <[to_key (nth_cell h (List.length r)) := x]> (mapToHeaders r h).
Proof. unfold mapToHeaders, reduce. by rewrite reduce_from_snoc. Qed.

Lemma mapToHeaders_nil (h : list val) : mapToHeaders [] h = ∅.
Proof. reflexivity. Qed.

Lemma nth_cell_beyond (h : list val) (i : nat) :
  (List.length h ≤ i)%nat → nth_cell h i = VUndef.
Proof. intros Hle. unfold nth_cell. by rewrite lookup_ge_None_2. Qed.

(** A key of the output is the name of a header at a position of the row. *)
Lemma mapToHeaders_lookup_None (r h : list val) (k : string) :
  (∀ j : nat, (j < List.length r)%nat → to_key (nth_cell h j) ≠ k) →
  mapToHeaders r h !! k = None.
Proof.
  induction r as [|x r IH] using rev_ind; intros Hk.
  - by rewrite mapToHeaders_nil.
  - rewrite mapToHeaders_snoc. rewrite length_app in Hk. simpl in Hk.
    rewrite lookup_insert_ne; [|apply Hk; lia].
    apply IH. intros j Hj. apply Hk. lia.
Qed.

(** C4, as the code has it. When the row is longer than the headers, the
    values beyond the last header are not dropped: each of them is stored
    under the key ["undefined"], so that the output holds the last value of
    the row there. When the row is shorter, a header beyond the end of the
    row has no entry in the output, provided that no header at a position of
    the row has the same name. *)
Theorem mapToHeaders_lengths (r h : list val) :
  ((List.length h < List.length r)%nat → mapToHeaders r h !! "undefined" = last r) ∧
  ((List.length r < List.length h)%nat →
     ∀ i : nat, (List.length r ≤ i < List.length h)%nat →
       (∀ j : nat, (j < List.length r)%nat → to_key (nth_cell h j) ≠ to_key (nth_cell h i)) →
       mapToHeaders r h !! to_key (nth_cell h i) = None).
Proof.
  split.
  - destruct r as [|x r _] using rev_ind; simpl; [lia|].
    rewrite length_app. simpl. intros Hlen.
    rewrite mapToHeaders_snoc, last_snoc, nth_cell_beyond by lia.
    apply lookup_insert_eq.
  - intros _ i _ Hfresh. by apply mapToHeaders_lookup_None.
Qed.

(** ** The secondary-colour expander *)

Lemma truthy_defined (v : val) :
  truthy v = true →
  v ≠ VUndef ∧ v ≠ VNull ∧ v ≠ VStr "" ∧ ∀ n : number, v = VNum n → num_is_zero n = false.
Proof.
  destruct v as [| |b|n|s]; simpl; try done.
  - intros Hn. apply negb_true_iff, orb_false_iff in Hn as [Hz _].
    split_and!; intros; congruence.
  - intros Hs. apply negb_true_iff, bool_decide_eq_false in Hs.
    split_and!; intros; congruence.
Qed.

(** C5. Every record that [normalizeSecondaryColorRow] returns has truthy
    [act_L], [act_a] and [act_b]: none of them is undefined, null, the empty
    string or the number zero. *)
Theorem normalizeSecondaryColorRow_truthy (row : obj) (dict : list (string * lab_entry))
    (r : obj) (k : string) :
  r ∈ normalizeSecondaryColorRow row dict →
  k ∈ ["act_L"; "act_a"; "act_b"] →
  truthy (get r k) = true ∧
  get r k ≠ VUndef ∧ get r k ≠ VNull ∧ get r k ≠ VStr "" ∧
  ∀ n : number, get r k = VNum n → num_is_zero n = false.
Proof.
  intros Hr Hk.
  assert (Ht : truthy (get r k) = true).
  { unfold normalizeSecondaryColorRow in Hr.
    apply list_elem_of_In, filter_In in Hr as [_ Hr].
    apply andb_true_iff in Hr as [Hr Hb]. apply andb_true_iff in Hr as [HL Ha].
    set_unfold in Hk. destruct Hk as [->|[->|[->|[]]]]; done. }
  split; [done | by apply truthy_defined].
Qed.

(** ** The paper type *)

Lemma no_digit_tail (c : ascii) (s : string) :
  no_digit (String c s) → is_digit c = false ∧ no_digit s.
Proof.
  intros Hno. split.
  - by apply (Hno 0%nat).
  - intros i d Hd. by apply (Hno (S i)).
Qed.

Lemma match_paperType_none (s : string) :
  no_digit s → match_paperType s = None.
Proof.
  induction s as [|c s IH]; intros Hno; simpl; [done|].
  apply no_digit_tail in Hno as [-> Hno]. by apply IH.
Qed.

Lemma match_paperType_first (pre : string) (d : ascii) (rest : string) :
  no_digit pre → is_digit d = true →
  match_paperType (pre +:+ String d rest)
  = Some (String d (match rest with
                    | String f _ => if is_F f then String f EmptyString else EmptyString
                    | EmptyString => EmptyString
                    end)).
Proof.
  intros Hno Hd. induction pre as [|c pre IH]; simpl.
  - by rewrite Hd.
  - apply no_digit_tail in Hno as [-> Hno]. by apply IH.
Qed.

Lemma is_F_spec (c : ascii) : is_F c = true ↔ (c = "F" ∨ c = "f")%char.
Proof.
  split.
  - destruct c as [[] [] [] [] [] [] [] []]; simpl; intros; try done; auto.
  - by intros [-> | ->].
Qed.

Lemma normalizeSheet_paperType (output : obj) :
  get (normalizeSheet output) "paperType" = get output "paperType".
Proof.
  unfold normalizeSheet. destruct (get output "sheet"); try done.
  by apply get_insert_ne.
Qed.

(** C6, as the code has it. When the projected [paperType] is a string,
    [normalizeMeta] replaces it by the first digit that occurs in it,
    together with the character behind that digit when it is an [F] in
    either case, kept as it is written; when the string has no digit, the
    call throws a [TypeError] and returns no record. *)
Theorem normalizeMeta_paperType (input : obj) (dict : list (string * entry)) (s : string) :
  get (projectMeta input dict) "paperType" = VStr s →
  (∀ (pre : string) (d : ascii) (rest : string),
     s = pre +:+ String d rest → no_digit pre → is_digit d = true →
     ∃ (out : obj) (res : string),
       normalizeMeta input dict = Ok out ∧ get out "paperType" = VStr res ∧
       ((∃ (c : ascii) (rest' : string),
           rest = String c rest' ∧ (c = "F" ∨ c = "f")%char ∧
           res = String d (String c EmptyString)) ∨
        ((∀ (c : ascii) (rest' : string), rest = String c rest' → c ≠ "F"%char ∧ c ≠ "f"%char) ∧
         res = String d EmptyString))) ∧
  (no_digit s → normalizeMeta input dict = Throw TypeError).
Proof.
  intros Hs. split.
  - intros pre d rest -> Hno Hd.
    unfold normalizeMeta, normalizePaperType.
    rewrite Hs, (match_paperType_first _ _ _ Hno Hd). simpl.
    eexists _, _. split; [done|].
    rewrite normalizeSheet_paperType, get_insert_eq. split; [done|].
    destruct rest as [|c rest']; [right; by split|].
    destruct (is_F c) eqn:HF.
    + left. exists c, rest'. by apply is_F_spec in HF.
    + right. split; [|done]. intros c' rest'' [= <- <-].
      split; intros ->; done.
  - intros Hno. unfold normalizeMeta, normalizePaperType.
    by rewrite Hs, (match_paperType_none _ Hno).
Qed.

(** ** The machine name *)

Lemma machine_at_S (c : ascii) (s : string) (i : nat) :
  machine_at (String c s) (S i) = machine_at s i.
Proof. reflexivity. Qed.

Lemma match_machine_skip (c : ascii) (s : string) :
  machine_at (String c s) 0 = false →
  match_machine (String c s) = match_machine s.
Proof.
  unfold machine_at. simpl.
  destruct s as [|a [|b [|d rest]]]; simpl; try done.
  by intros ->.
Qed.

Lemma match_machine_none (s : string) :
  (∀ i : nat, machine_at s i = false) → match_machine s = [].
Proof.
  induction s as [|c s IH]; intros Hno; [done|].
  rewrite match_machine_skip by apply (Hno 0%nat).
  apply IH. intros i. apply (Hno (S i)).
Qed.

Lemma match_machine_first (s : string) (i : nat) :
  machine_at s i = true → (∀ j : nat, (j < i)%nat → machine_at s j = false) →
  head (match_machine s) = Some (substring i 4 s).
Proof.
  revert s. induction i as [|i IH]; intros s Hi Hbefore.
  - unfold machine_at in Hi. simpl in Hi.
    destruct s as [|r [|a [|b [|c rest]]]]; simpl in Hi; try done.
    simpl. rewrite Hi. by destruct rest.
  - destruct s as [|c s]; [done|].
    rewrite match_machine_skip by (apply Hbefore; lia).
    rewrite machine_at_S in Hi. simpl. apply IH; [done|].
    intros j Hj. rewrite <- machine_at_S with (c := c). apply Hbefore. lia.
Qed.

(** C7. [getMachineName] returns the leftmost substring that reads as an
    [R] in either case followed by three digits, as it is written in the
    file name; it returns the empty string when the file name is absent or
    empty, or has no such substring. *)
Theorem getMachineName_spec :
  getMachineName None = "" ∧
  getMachineName (Some "") = "" ∧
  (∀ s : string, (∀ i : nat, machine_at s i = false) → getMachineName (Some s) = "") ∧
  (∀ (s : string) (i : nat),
     machine_at s i = true → (∀ j : nat, (j < i)%nat → machine_at s j = false) →
     getMachineName (Some s) = substring i 4 s) ∧
  getMachineName (Some "fooR508bar.csv") = "R508" ∧
  getMachineName (Some "r20-R508-r301-bar.csv") = "R508" ∧
  getMachineName (Some "foo-bar.csv") = "".
Proof.
  split_and!; try reflexivity.
  - intros s Hno. unfold getMachineName.
    case_bool_decide; [done|]. by rewrite match_machine_none.
  - intros s i Hi Hbefore. unfold getMachineName.
    case_bool_decide as Hempty.
    + subst s. unfold machine_at in Hi. by destruct i.
    + pose proof (match_machine_first s i Hi Hbefore) as Hhead.
      by destruct (match_machine s); simplify_eq/=.
Qed.

(** ** The header mapper on the heap *)

Lemma store_other (o l : positive) (k : string) (v : val) (σ : heap) :
  l ≠ o → store o k v σ !! l = σ !! l.
Proof.
  intros Hne. unfold store.
  destruct (σ !! o) as [[a|m]|]; try done. by rewrite lookup_insert_ne.
Qed.

Lemma mapToHeaders_step_other (row headers o l : positive) (σ : heap) (i : nat) :
  l ≠ o → mapToHeaders_step row headers o σ i !! l = σ !! l.
Proof.
  intros Hne. unfold mapToHeaders_step.
  destruct (array_at σ row !! i); [by apply store_other | done].
Qed.

Lemma mapToHeaders_loop_other (row headers o l : positive) (σ : heap) (turns : list nat) :
  l ≠ o → foldl (mapToHeaders_step row headers o) σ turns !! l = σ !! l.
Proof.
  intros Hne. revert σ. induction turns as [|i turns IH]; intros σ; simpl; [done|].
  by rewrite IH, mapToHeaders_step_other.
Qed.

Lemma fresh_not_allocated (σ : heap) (l : positive) :
  is_Some (σ !! l) → l ≠ fresh (dom σ).
Proof.
  intros Hl ->. apply elem_of_dom in Hl. by apply is_fresh in Hl.
Qed.

Lemma isArray_allocated (σ : heap) (l : positive) :
  isArray σ l = true → is_Some (σ !! l).
Proof. unfold isArray. destruct (σ !! l); [eauto | done]. Qed.

Lemma mapToHeaders_heap_kept (row headers l : positive) (σ : heap) :
  is_Some (σ !! l) → (mapToHeaders_heap row headers σ).2 !! l = σ !! l.
Proof.
  intros Hl. unfold mapToHeaders_heap.
  destruct (isArray σ row); simpl; [|done].
  destruct (isArray σ headers); simpl; [|done].
  pose proof (fresh_not_allocated σ l Hl) as Hne.
  rewrite mapToHeaders_loop_other by done. by rewrite lookup_insert_ne.
Qed.

(** C9. A call of [mapToHeaders] leaves the row array and the headers array
    as they were; so it does every array and object that existed before the
    call. *)
Theorem mapToHeaders_heap_frame (row headers : positive) (σ : heap) :
  (mapToHeaders_heap row headers σ).2 !! row = σ !! row ∧
  (mapToHeaders_heap row headers σ).2 !! headers = σ !! headers ∧
  ∀ l : positive, l ∈ dom σ → (mapToHeaders_heap row headers σ).2 !! l = σ !! l.
Proof.
  assert (Harr : ∀ l : positive,
    isArray σ row = true → isArray σ headers = true → l = row ∨ l = headers →
    (mapToHeaders_heap row headers σ).2 !! l = σ !! l).
  { intros l Hr Hh [-> | ->]; by apply mapToHeaders_heap_kept, isArray_allocated. }
  split_and!.
  - destruct (isArray σ row) eqn:Hr; [destruct (isArray σ headers) eqn:Hh|].
    + apply Harr; auto.
    + unfold mapToHeaders_heap. by rewrite Hr, Hh.
    + unfold mapToHeaders_heap. by rewrite Hr.
  - destruct (isArray σ row) eqn:Hr; [destruct (isArray σ headers) eqn:Hh|].
    + apply Harr; auto.
    + unfold mapToHeaders_heap. by rewrite Hr, Hh.
    + unfold mapToHeaders_heap. by rewrite Hr.
  - intros l Hl. by apply mapToHeaders_heap_kept, elem_of_dom.
Qed.

(** On two arrays the heap version allocates one object, which holds what
    the function on values computes. *)
Lemma mapToHeaders_loop_take (row headers : positive) (r h : list val) (σ : heap) (n : nat) :
  σ !! row = Some (CArr r) → σ !! headers = Some (CArr h) → (n ≤ List.length r)%nat →
  foldl (mapToHeaders_step row headers (fresh (dom σ)))
        (<[fresh (dom σ) := CObj ∅]> σ) (seq 0 n)
  = <[fresh (dom σ) := CObj (mapToHeaders (take n r) h)]> σ.
Proof.
  intros Hrow Hheaders. set (o := fresh (dom σ)).
  assert (Hro : row ≠ o) by (apply fresh_not_allocated; eauto).
  assert (Hho : headers ≠ o) by (apply fresh_not_allocated; eauto).
  induction n as [|n IH]; intros Hn; [done|].
  rewrite seq_S, foldl_snoc, IH by lia. simpl.
  unfold mapToHeaders_step, array_at.
  rewrite !lookup_insert_ne, Hrow, Hheaders by done.
  destruct (lookup_lt_is_Some_2 r n) as [v Hv]; [lia|]. rewrite Hv.
  unfold store. rewrite lookup_insert_eq, insert_insert_eq.
  rewrite (take_S_r _ _ _ Hv), mapToHeaders_snoc, length_take_le by lia.
  done.
Qed.

Lemma mapToHeaders_heap_result (row headers : positive) (r h : list val) (σ : heap) :
  σ !! row = Some (CArr r) → σ !! headers = Some (CArr h) →
  mapToHeaders_heap row headers σ
  = (Ok (fresh (dom σ)), <[fresh (dom σ) := CObj (mapToHeaders r h)]> σ).
Proof.
  intros Hrow Hheaders. unfold mapToHeaders_heap, isArray.
  rewrite Hrow, Hheaders. simpl. f_equal.
  unfold array_at at 1. rewrite Hrow.
  rewrite (mapToHeaders_loop_take _ _ r h) by done.
  by rewrite firstn_all.
Qed.

(** ** The colour of a data row *)

Lemma dataRow_step_throws (row o : obj) (p : string * entry) (e : exn) :
  dataRow_step row o p = Throw e → e = TypeError.
Proof.
  destruct p as [key d]. unfold dataRow_step.
  destruct (isNumber _); [done|].
  case_bool_decide; [|done].
  destruct (get row (manroland d)); simpl; congruence.
Qed.

Lemma dataRow_step_color (row o o' : obj) (d : entry) :
  dataRow_step row o ("color", d) = Ok o' →
  isNumber (get row (manroland d)) = true ∨ ∃ s : string, get row (manroland d) = VStr s.
Proof.
  unfold dataRow_step.
  destruct (isNumber _); [by left|].
  rewrite bool_decide_eq_true_2 by done.
  destruct (get row (manroland d)); simpl; try done. eauto.
Qed.

Lemma isNumber_nullish (v : val) : v = VNull ∨ v = VUndef → isNumber v = false.
Proof. by intros [-> | ->]. Qed.

Lemma dataRow_step_nullish (row o : obj) (d : entry) :
  get row (manroland d) = VNull ∨ get row (manroland d) = VUndef →
  dataRow_step row o ("color", d) = Throw TypeError.
Proof.
  intros Hv. unfold dataRow_step.
  rewrite (isNumber_nullish _ Hv), bool_decide_eq_true_2 by done.
  by destruct Hv as [-> | ->].
Qed.

Lemma dataRow_loop_each (row : obj) (dict : list (string * entry)) (acc out : obj)
    (p : string * entry) :
  reduceM (dataRow_step row) dict acc = Ok out → p ∈ dict →
  ∃ o o' : obj, dataRow_step row o p = Ok o'.
Proof.
  revert acc. induction dict as [|q dict IH]; intros acc; cbn [reduceM]; intros Hout Hp.
  - by apply elem_of_nil in Hp.
  - destruct (dataRow_step row acc q) as [acc'|] eqn:Hstep; simpl in Hout; [|done].
    apply elem_of_cons in Hp as [-> | Hp]; [eauto | by eapply IH].
Qed.

Lemma dataRow_loop_throws (row : obj) (dict : list (string * entry)) (acc : obj)
    (p : string * entry) :
  p ∈ dict → (∀ o : obj, dataRow_step row o p = Throw TypeError) →
  reduceM (dataRow_step row) dict acc = Throw TypeError.
Proof.
  intros Hp Hthrow. revert acc.
  induction dict as [|q dict IH]; intros acc; cbn [reduceM].
  - by apply elem_of_nil in Hp.
  - destruct (dataRow_step row acc q) as [acc'|e] eqn:Hstep; simpl.
    + apply elem_of_cons in Hp as [-> | Hp]; [|by apply IH].
      rewrite Hthrow in Hstep. done.
    + by rewrite (dataRow_step_throws _ _ _ _ Hstep).
Qed.

Lemma normalizeDataRow_nullish_color (row : obj) (dict : list (string * entry)) (d : entry) :
  ("color", d) ∈ dict →
  get row (manroland d) = VNull ∨ get row (manroland d) = VUndef →
  normalizeDataRow row dict = Throw TypeError.
Proof.
  intros Hd Hv. unfold normalizeDataRow.
  apply (dataRow_loop_throws _ _ _ _ Hd). intros o. by apply dataRow_step_nullish.
Qed.

Lemma onData_nullish_color (D : dictionary) (st : state) (cells : list val) (d : entry) :
  ("color", d) ∈ data D → st_isData st = true → skip cells = false →
  get (mapToHeaders cells (st_headers st)) (manroland d) = VNull ∨
  get (mapToHeaders cells (st_headers st)) (manroland d) = VUndef →
  onData D st cells = Throw TypeError.
Proof.
  intros Hd Hdata Hskip Hv. unfold onData.
  by rewrite Hskip, Hdata, (normalizeDataRow_nullish_color _ _ _ Hd Hv).
Qed.

(** C10. With [color] declared in the dictionary section, [normalizeDataRow]
    returns a record only if the cell in the colour column is number-like
    or a string, and throws a [TypeError] when that cell is [null] or
    [undefined]. In the stream driver the handler of such a data row throws
    that [TypeError], and the parse is aborted: no result is delivered, and
    on a stream with a file name or path the callback receives the
    [TypeError] as its error, once. *)
Theorem normalizeDataRow_color_guard :
  (∀ (row : obj) (dict : list (string * entry)) (d : entry) (out : obj),
     ("color", d) ∈ dict → normalizeDataRow row dict = Ok out →
     isNumber (get row (manroland d)) = true ∨ ∃ s : string, get row (manroland d) = VStr s) ∧
  (∀ (row : obj) (dict : list (string * entry)) (d : entry),
     ("color", d) ∈ dict →
     get row (manroland d) = VNull ∨ get row (manroland d) = VUndef →
     normalizeDataRow row dict = Throw TypeError) ∧
  (∀ (D : dictionary) (f : file) (pre post : list (list val)) (cells : list val)
     (st : state) (d : entry),
     rows f = pre ++ cells :: post →
     reduceM (onData D) pre initial = Ok st →
     st_isData st = true → skip cells = false →
     ("color", d) ∈ data D →
     get (mapToHeaders cells (st_headers st)) (manroland d) = VNull ∨
     get (mapToHeaders cells (st_headers st)) (manroland d) = VUndef →
     onData D st cells = Throw TypeError ∧
     (∀ res : parse_result, CbResult res ∉ calls (parser D f)) ∧
     (∀ name : string, filename_or_path f = Some name →
        parser D f = {| calls := [CbError TypeError]; uncaught := None |})).
Proof.
  split_and!.
  - intros row dict d out Hd Hout.
    destruct (dataRow_loop_each _ _ _ _ _ Hout Hd) as (o & o' & Hstep).
    by eapply dataRow_step_color.
  - apply normalizeDataRow_nullish_color.
  - intros D f pre post cells st d Hrows Hpre Hdata Hskip Hd Hv.
    pose proof (onData_nullish_color _ _ _ _ Hd Hdata Hskip Hv) as Hstep.
    assert (Hrun : reduceM (onData D) (rows f) initial = Throw TypeError).
    { rewrite Hrows, reduceM_app, Hpre. simpl. by rewrite Hstep. }
    split_and!; [done | |].
    + intros res. unfold parser. rewrite Hrun.
      destruct (filename_or_path f); simpl; set_solver.
    + intros name Hname. unfold parser. by rewrite Hname, Hrun.
Qed.

(** ** Completion of the parse *)


(** An exception of [normalizeMeta] at stream end leaves the callback
    uninvoked, whatever the dictionary. *)
Lemma parser_meta_throws (D : dictionary) (f : file) (name : string) (st : state) (e : exn) :
  filename_or_path f = Some name →
  reduceM (onData D) (rows f) initial = Ok st → upstream_error f = None →
  st_values st ≠ [] → normalizeMeta (st_meta st) (meta D) = Throw e →
  parser D f = {| calls := []; uncaught := Some e |}.
Proof.
  intros Hname Hrows Hend Hvalues Hmeta. unfold parser.
  rewrite Hname, Hrows, Hend, Hmeta.
  by rewrite bool_decide_eq_false_2 by (by destruct (st_values st)).
Qed.

(** An exception of a row handler reaches the callback as the error of the
    pipeline. *)
Lemma parser_row_throws (D : dictionary) (f : file) (name : string) (e : exn) :
  filename_or_path f = Some name →
  reduceM (onData D) (rows f) initial = Throw e →
  parser D f = {| calls := [CbError e]; uncaught := None |}.
Proof. intros Hname Hrows. unfold parser. by rewrite Hname, Hrows. Qed.

(** Without a file name and a path the call throws before it reads a row. *)
Lemma parser_nameless (D : dictionary) (f : file) :
  filename_or_path f = None →
  parser D f = {| calls := []; uncaught := Some TypeError |}.
Proof. intros Hname. unfold parser. by rewrite Hname. Qed.


End Properties.

(** * The statements on concrete inputs *)

Lemma normalize_key_set_witness :
  (∃ out : gmap string (value int_number),
     normalizeMeta test_meta_input test_meta_dict = Ok out ∧
     dom out = list_to_set (getKeys test_meta_dict)) ∧
  (∃ out : gmap string (value int_number),
     normalizeDataRow test_data_row test_data_dict = Ok out ∧
     dom out = list_to_set (getKeys test_data_dict)).
Proof.
  split; eexists; (split; [reflexivity|]).
  - apply (proj1 (normalize_key_set test_meta_input test_meta_dict)). reflexivity.
  - apply (proj2 (normalize_key_set test_data_row test_data_dict)). reflexivity.
Defined.

Lemma correctOldTonval_spec_witness :
  correctOldTonval new_schema_row = new_schema_row ∧
  correctOldTonval old_schema_row !! "tonVal40" = Some (VNum (IInt 55)) ∧
  correctOldTonval old_schema_row !! "tonVal50" = None ∧
  correctOldTonval old_schema_row !! "tonVal20" = None ∧
  correctOldTonval old_schema_row !! "color" = Some (str "cyn").
Proof.
  split.
  - apply (proj1 (correctOldTonval_spec new_schema_row)). vm_compute. discriminate.
  - destruct (proj2 (correctOldTonval_spec old_schema_row)) as (H40 & H50 & H20 & Hother);
      [reflexivity|].
    split_and!; [exact H40 | exact H50 | exact H20 |].
    rewrite Hother; [reflexivity | discriminate..].
Defined.

Lemma mapToHeaders_lengths_witness :
  mapToHeaders [str "a"; str "b"; str "c"] [str "x"] !! "undefined" = Some (str "c") ∧
  mapToHeaders [str "a"] [str "x"; str "y"] !! "y" = None.
Proof.
  split.
  - apply (proj1 (mapToHeaders_lengths [str "a"; str "b"; str "c"] [str "x"])).
    simpl. lia.
  - apply (proj2 (mapToHeaders_lengths [str "a"] [str "x"; str "y"]) ltac:(simpl; lia) 1%nat).
    + simpl. lia.
    + intros j Hj. simpl in Hj. destruct j as [|j]; [discriminate | lia].
Defined.

(** C4, as stated, fails: the second value of the row has no header, and
    yet the output holds it, under the key ["undefined"]. *)
Lemma mapToHeaders_extra_value_counterexample :
  (List.length [str "x"] < List.length [str "a"; str "b"])%nat ∧
  mapToHeaders [str "a"; str "b"] [str "x"]
  = <["undefined" := str "b"]> {[ "x" := str "a" ]}.
Proof. split; [simpl; lia | reflexivity]. Qed.

Lemma normalizeSecondaryColorRow_truthy_witness :
  truthy (get secondary_CM "act_a") = true ∧
  get secondary_CM "act_a" ≠ VUndef ∧ get secondary_CM "act_a" ≠ VNull ∧
  get secondary_CM "act_a" ≠ VStr "" ∧
  ∀ n : int_number, get secondary_CM "act_a" = VNum n → num_is_zero n = false.
Proof.
  apply (normalizeSecondaryColorRow_truthy secondary_row (secondary DICTIONARY)).
  - replace (normalizeSecondaryColorRow secondary_row (secondary DICTIONARY))
      with [secondary_CM] by (vm_compute; reflexivity).
    apply list_elem_of_here.
  - apply list_elem_of_further, list_elem_of_here.
Defined.

Lemma normalizeMeta_paperType_witness :
  ∃ out : gmap string (value int_number),
    normalizeMeta {[ "paperType" := str "4 (bar)" ]} paperType_dict = Ok out ∧
    get out "paperType" = VStr "4".
Proof.
  assert (Hs : get (projectMeta {[ "paperType" := str "4 (bar)" ]} paperType_dict) "paperType"
               = VStr "4 (bar)") by reflexivity.
  destruct (proj1 (normalizeMeta_paperType _ _ _ Hs) "" "4"%char " (bar)" eq_refl)
    as (out & res & Hout & Hres & Hcase).
  - intros i c Hc. destruct i; discriminate.
  - reflexivity.
  - exists out. split; [exact Hout|]. rewrite Hres.
    destruct Hcase as [(c & rest' & Hrest & [-> | ->] & _) | [_ ->]];
      [discriminate Hrest.. | reflexivity].
Defined.

(** C6, as stated, fails: a lower-case [f] behind the digit is kept, so the
    result is neither the digit alone nor the digit followed by [F]. *)
Lemma normalizeMeta_paperType_counterexample :
  normalizeMeta {[ "paperType" := str "4f" ]} paperType_dict
  = Ok {[ "paperType" := str "4f" ]} ∧
  ¬ ∃ d : ascii, is_digit d = true ∧
      ("4f" = String d EmptyString ∨ "4f" = String d (String "F" EmptyString)).
Proof.
  split; [reflexivity|].
  intros (d & _ & [H | H]); discriminate.
Qed.

Lemma getMachineName_spec_witness :
  getMachineName (Some "fooR508bar.csv") = substring 3 4 "fooR508bar.csv" ∧
  getMachineName (Some "foo-bar.csv") = "".
Proof.
  destruct getMachineName_spec as (_ & _ & Hnone & Hfirst & _).
  split.
  - apply Hfirst; [reflexivity|].
    intros j Hj. do 3 (destruct j as [|j]; [reflexivity|]). lia.
  - apply Hnone. intros i.
    do 11 (destruct i as [|i]; [reflexivity|]). reflexivity.
Defined.

Lemma mapToHeaders_heap_frame_witness :
  (mapToHeaders_heap 1 2 two_arrays).2 !! 1%positive
  = Some (CArr [VNum (IInt 1); VNum (IInt 2)]) ∧
  (mapToHeaders_heap 1 2 two_arrays).2 !! 2%positive
  = Some (CArr [str "foo"; str "bar"]).
Proof.
  destruct (mapToHeaders_heap_frame 1 2 two_arrays) as (Hrow & Hheaders & _).
  split; [rewrite Hrow | rewrite Hheaders]; reflexivity.
Defined.

Lemma normalizeDataRow_color_guard_witness :
  (isNumber (get test_data_row "ColorName") = true ∨
   ∃ s : string, get test_data_row "ColorName" = VStr s) ∧
  normalizeDataRow (<["ColorName" := VNull]> test_data_row) test_data_dict = Throw TypeError ∧
  parser DICTIONARY blank_color_file = {| calls := [CbError TypeError]; uncaught := None |}.
Proof.
  destruct (@normalizeDataRow_color_guard int_number _) as (Hreturns & Hthrows & Hdriver).
  split_and!.
  - eapply (Hreturns test_data_row test_data_dict {| manroland := "ColorName" |}).
    + apply list_elem_of_here.
    + reflexivity.
  - apply (Hthrows _ test_data_dict {| manroland := "ColorName" |}).
    + apply list_elem_of_here.
    + left. reflexivity.
  - eapply (Hdriver DICTIONARY blank_color_file
              (take 2 (rows blank_color_file)) (drop 3 (rows blank_color_file))
              [str "2"; VNull; str "3"; str "56"] after_first_row
              {| manroland := "ColorName" |}).
    + reflexivity.
    + reflexivity.
    + reflexivity.
    + reflexivity.
    + apply list_elem_of_further, list_elem_of_here.
    + left. reflexivity.
    + reflexivity.
Defined.



(** * Further properties of the code *)

Section Driver.
Context {number : Type} `{!JsNumber number}.

Abbreviation val := (value number).
Abbreviation obj := (gmap string (value number)).

(** ** Skipped rows *)

Lemma onData_skip (D : dictionary) (st : state) (row : list val) :
  skip row = true → onData D st row = Ok st.
Proof. intros Hskip. unfold onData. by rewrite Hskip. Qed.

Lemma run_without_skipped (D : dictionary) (rs : list (list val)) (st : state) :
  reduceM (onData D) (List.filter (λ row, negb (skip row)) rs) st
  = reduceM (onData D) rs st.
Proof.
  revert st. induction rs as [|row rs IH]; intros st; [done|].
  cbn [List.filter reduceM]. destruct (skip row) eqn:Hskip; cbn [negb].
  - rewrite (onData_skip _ _ _ Hskip). simpl. apply IH.
  - cbn [reduceM]. destruct (onData D st row); simpl; [apply IH | done].
Qed.

(** X1. The rows that [skip] singles out take no part in the parse: the
    outcome on a stream is the outcome on the stream without them. *)
Theorem parser_ignores_skipped (D : dictionary) (f : file) :
  parser D (with_rows f (List.filter (λ row, negb (skip row)) (rows f))) = parser D f.
Proof.
  unfold parser.
  change (filename_or_path (with_rows f (List.filter (λ row, negb (skip row)) (rows f))))
    with (filename_or_path f).
  cbn [with_rows rows upstream_error]. by rewrite run_without_skipped.
Qed.

(** ** Before the header row *)

Lemma onData_prelude (D : dictionary) (st : state) (row : list val) :
  st_isData st = false → prelude_row row →
  ∃ st' : state, onData D st row = Ok st' ∧ st_isData st' = false ∧
    st_values st' = st_values st ∧ st_headers st' = st_headers st ∧
    (skip row = true → st_meta st' = st_meta st) ∧
    (skip row = false →
       st_meta st' = <[to_key (nth_cell row 0) := nth_cell row 1]> (st_meta st)).
Proof.
  intros Hdata Hrow. unfold onData. rewrite Hdata.
  destruct (skip row) eqn:Hskip.
  - exists st. split_and!; done.
  - destruct Hrow as [Hrow | Hrow]; [congruence|]. rewrite Hrow.
    eexists. split; [done|]. split_and!; done.
Qed.

Lemma onData_header (D : dictionary) (st : state) (row : list val) :
  st_isData st = false → skip row = false → isHeaderRow row = true →
  onData D st row
  = Ok {| st_meta := st_meta st; st_values := st_values st;
          st_headers := st_headers st ++ row; st_isData := true |}.
Proof. intros Hdata Hskip Hheader. unfold onData. by rewrite Hskip, Hdata, Hheader. Qed.

Lemma run_prelude (D : dictionary) (rs : list (list val)) (st : state) :
  st_isData st = false → Forall prelude_row rs →
  ∃ st' : state, reduceM (onData D) rs st = Ok st' ∧ st_isData st' = false ∧
    st_values st' = st_values st ∧ st_headers st' = st_headers st.
Proof.
  intros Hdata Hrs. revert st Hdata.
  induction Hrs as [|row rs Hrow _ IH]; intros st Hdata.
  - exists st. split_and!; done.
  - destruct (onData_prelude D st row Hdata Hrow) as (st1 & Hstep & Hdata1 & Hv1 & Hh1 & _).
    destruct (IH st1 Hdata1) as (st' & Hrun & Hdata' & Hv' & Hh').
    exists st'. cbn [reduceM]. rewrite Hstep. simpl.
    split_and!; [done | done | congruence | congruence].
Qed.

(** X2. A stream with a file name or a path and without a header row (every
    row is skipped or does not start with the header marker), the empty
    stream among them, ends in the ["InvalidInput"] error, whatever
    metadata it carries. *)
Theorem parser_headerless_invalid (D : dictionary) (f : file) (name : string) :
  filename_or_path f = Some name →
  Forall prelude_row (rows f) → upstream_error f = None →
  parser D f = {| calls := [CbError (Error "InvalidInput")]; uncaught := None |}.
Proof.
  intros Hname Hrows Hend.
  destruct (run_prelude D (rows f) initial eq_refl Hrows) as (st & Hrun & _ & Hvalues & _).
  unfold parser. rewrite Hname, Hrun, Hend, Hvalues. done.
Qed.

(** ** Behind the header row *)

Lemma onData_data (D : dictionary) (st st' : state) (row : list val) :
  st_isData st = true → onData D st row = Ok st' →
  st_isData st' = true ∧ st_meta st' = st_meta st ∧ st_headers st' = st_headers st ∧
  st_values st `prefix_of` st_values st'.
Proof.
  intros Hdata. unfold onData. rewrite Hdata.
  destruct (skip row); [by intros [= <-]|].
  destruct (normalizeDataRow _ _) as [out|]; simpl; [|done].
  destruct (isSecondaryColorRow row); intros [= <-]; simpl;
    (split_and!; [done | done | done | by eexists]).
Qed.

Lemma run_data (D : dictionary) (rs : list (list val)) (st st' : state) :
  st_isData st = true → reduceM (onData D) rs st = Ok st' →
  st_isData st' = true ∧ st_meta st' = st_meta st ∧ st_headers st' = st_headers st ∧
  st_values st `prefix_of` st_values st'.
Proof.
  revert st. induction rs as [|row rs IH]; intros st Hdata; cbn [reduceM].
  - by intros [= <-].
  - destruct (onData D st row) as [st1|] eqn:Hstep; simpl; [|done].
    intros Hrun.
    destruct (onData_data _ _ _ _ Hdata Hstep) as (Hdata1 & Hm1 & Hh1 & Hv1).
    destruct (IH st1 Hdata1 Hrun) as (Hdata' & Hm' & Hh' & Hv').
    split_and!; [done | congruence | congruence | by etrans].
Qed.

(** X3. Once the header row has been seen, the rest of the stream changes
    neither the headers nor the metadata, the driver stays in the data
    section, and [values] only grows at its end. *)
Theorem driver_frozen_after_header (D : dictionary) (rs : list (list val)) (st st' : state) :
  st_isData st = true → reduceM (onData D) rs st = Ok st' →
  st_isData st' = true ∧ st_meta st' = st_meta st ∧ st_headers st' = st_headers st ∧
  st_values st `prefix_of` st_values st'.
Proof. apply run_data. Qed.

(** X4. In the data section every row that is neither skipped nor a
    secondary-colour row contributes exactly one record. *)
Theorem driver_primary_count (D : dictionary) (rs : list (list val)) (st st' : state) :
  st_isData st = true → Forall (λ row, isSecondaryColorRow row = false) rs →
  reduceM (onData D) rs st = Ok st' →
  List.length (st_values st')
  = (List.length (st_values st) + List.length (List.filter (λ row, negb (skip row)) rs))%nat.
Proof.
  intros Hdata Hrs. revert st Hdata.
  induction Hrs as [|row rs Hrow _ IH]; intros st Hdata; cbn [reduceM List.filter].
  - intros [= <-]. simpl. lia.
  - destruct (onData D st row) as [st1|] eqn:Hstep; simpl; [|done].
    intros Hrun.
    destruct (onData_data _ _ _ _ Hdata Hstep) as (Hdata1 & _).
    rewrite (IH st1 Hdata1 Hrun).
    unfold onData in Hstep. rewrite Hdata in Hstep.
    destruct (skip row); cbn [negb].
    + injection Hstep as <-. done.
    + destruct (normalizeDataRow _ _) as [out|]; simpl in Hstep; [|done].
      rewrite Hrow in Hstep. injection Hstep as <-. simpl.
      rewrite length_app. simpl. lia.
Qed.

(** ** The header row *)

Lemma run_to_header (D : dictionary) (rs : list (list val)) (st st' : state) :
  st_isData st = false → reduceM (onData D) rs st = Ok st' →
  (st_isData st' = false ∧ Forall prelude_row rs ∧
   st_headers st' = st_headers st ∧ st_values st' = st_values st) ∨
  (∃ (pre : list (list val)) (hdr : list val) (post : list (list val)),
     rs = pre ++ hdr :: post ∧ Forall prelude_row pre ∧
     skip hdr = false ∧ isHeaderRow hdr = true ∧
     st_isData st' = true ∧ st_headers st' = st_headers st ++ hdr).
Proof.
  revert st. induction rs as [|row rs IH]; intros st Hdata; cbn [reduceM].
  - intros [= <-]. left. split_and!; done.
  - destruct (skip row) eqn:Hskip; [|destruct (isHeaderRow row) eqn:Hheader].
    + rewrite (onData_skip _ _ _ Hskip). simpl. intros Hrun.
      destruct (IH st Hdata Hrun) as [(? & ? & ? & ?) | (pre & hdr & post & -> & ? & ? & ? & ? & ?)].
      * left. split_and!; try done. constructor; [by left | done].
      * right. exists (row :: pre), hdr, post. split_and!; try done.
        constructor; [by left | done].
    + rewrite onData_header by done. simpl. intros Hrun.
      apply run_data in Hrun as (Hdata' & _ & Hh' & _); [|done].
      right. exists [], row, rs. split_and!; try done.
    + destruct (onData_prelude D st row Hdata (or_intror Hheader))
        as (st1 & Hstep & Hdata1 & Hv1 & Hh1 & _).
      rewrite Hstep. simpl. intros Hrun.
      destruct (IH st1 Hdata1 Hrun) as [(? & ? & ? & ?) | (pre & hdr & post & -> & ? & ? & ? & ? & ?)].
      * left. split_and!; try done; try congruence. constructor; [by right | done].
      * right. exists (row :: pre), hdr, post. split_and!; try done; try congruence.
        constructor; [by right | done].
Qed.

(** X5. The headers are captured once: when the driver ends in the data
    section, they are the cells of the first row that is not skipped and
    starts with the header marker; a later row of that kind is handled as a
    data row and leaves them alone. When it does not, there was no such row
    and nothing has been emitted. *)
Theorem driver_header_once (D : dictionary) (rs : list (list val)) (st : state) :
  reduceM (onData D) rs initial = Ok st →
  (st_isData st = true →
     ∃ (pre : list (list val)) (hdr : list val) (post : list (list val)),
       rs = pre ++ hdr :: post ∧ Forall prelude_row pre ∧
       skip hdr = false ∧ isHeaderRow hdr = true ∧ st_headers st = hdr) ∧
  (st_isData st = false →
     Forall prelude_row rs ∧ st_headers st = [] ∧ st_values st = []).
Proof.
  intros Hrun.
  destruct (run_to_header D rs initial st eq_refl Hrun)
    as [(Hdata & Hrs & Hh & Hv) | (pre & hdr & post & -> & Hpre & Hskip & Hheader & Hdata & Hh)].
  - split; [congruence | done].
  - split; [|congruence]. intros _. by exists pre, hdr, post.
Qed.

(** ** The metadata accumulator *)

Lemma run_prelude_meta (D : dictionary) (rs : list (list val)) (st : state) (k : string) :
  st_isData st = false → Forall prelude_row rs →
  Forall (λ row, skip row = false → to_key (nth_cell row 0) ≠ k) rs →
  ∃ st' : state, reduceM (onData D) rs st = Ok st' ∧ st_isData st' = false ∧
    st_meta st' !! k = st_meta st !! k.
Proof.
  intros Hdata Hrs. revert st Hdata.
  induction Hrs as [|row rs Hrow _ IH]; intros st Hdata Hk.
  - exists st. split_and!; done.
  - apply Forall_cons in Hk as [Hk Hks].
    destruct (onData_prelude D st row Hdata Hrow)
      as (st1 & Hstep & Hdata1 & _ & _ & Hskipped & Hmeta).
    destruct (IH st1 Hdata1 Hks) as (st' & Hrun & Hdata' & Hlookup).
    exists st'. cbn [reduceM]. rewrite Hstep. simpl. split_and!; [done | done |].
    rewrite Hlookup. destruct (skip row) eqn:Hskip.
    + by rewrite Hskipped.
    + rewrite Hmeta by done. apply lookup_insert_ne. by apply Hk.
Qed.

(** X6. Among the lines of metadata the last one with a given label wins:
    its second cell is what the accumulator holds under that label at the
    end of the stream, however the stream goes on behind the header row. *)
Theorem driver_meta_last_wins (D : dictionary) (pre post rest : list (list val))
    (row : list val) (st : state) :
  Forall prelude_row pre → skip row = false → isHeaderRow row = false →
  Forall prelude_row post →
  Forall (λ later, skip later = false → to_key (nth_cell later 0) ≠ to_key (nth_cell row 0)) post →
  (∀ (hdr : list val) (rest' : list (list val)),
     rest = hdr :: rest' → skip hdr = false ∧ isHeaderRow hdr = true) →
  reduceM (onData D) (pre ++ row :: post ++ rest) initial = Ok st →
  st_meta st !! to_key (nth_cell row 0) = Some (nth_cell row 1).
Proof.
  intros Hpre Hskip Hheader Hpost Hlater Hrest.
  destruct (run_prelude D pre initial eq_refl Hpre) as (st1 & Hrun1 & Hdata1 & _).
  destruct (onData_prelude D st1 row Hdata1 (or_intror Hheader))
    as (st2 & Hstep & Hdata2 & _ & _ & _ & Hmeta2).
  destruct (run_prelude_meta D post st2 _ Hdata2 Hpost Hlater)
    as (st3 & Hrun3 & Hdata3 & Hmeta3).
  rewrite reduceM_app, Hrun1. simpl. cbn [reduceM]. rewrite Hstep. simpl.
  rewrite reduceM_app, Hrun3. simpl.
  assert (Hfound : st_meta st3 !! to_key (nth_cell row 0) = Some (nth_cell row 1)).
  { rewrite Hmeta3, Hmeta2 by done. apply lookup_insert_eq. }
  destruct rest as [|hdr rest']; cbn [reduceM].
  - by intros [= <-].
  - destruct (Hrest hdr rest' eq_refl) as [Hskip' Hheader'].
    rewrite onData_header by done. simpl. intros Hrun.
    apply run_data in Hrun as (_ & Hmeta & _); [|done].
    by rewrite Hmeta.
Qed.

End Driver.

Section Normalizers.
Context {number : Type} `{!JsNumber number}.

Abbreviation val := (value number).
Abbreviation obj := (gmap string (value number)).

(** ** Number coercion *)

Lemma isNumber_coerced (v : val) :
  isNumber v = true → isNumber (VNum (to_number v) : val) = true.
Proof.
  destruct v as [| | |n|s]; simpl; try done.
  intros Hs. apply andb_true_iff in Hs as [-> _]. done.
Qed.

(** X7. [tryNumber] is idempotent, and it leaves [undefined], [null], the
    booleans and the empty string as they are. *)
Theorem tryNumber_idempotent (v : val) :
  tryNumber (tryNumber v) = tryNumber v ∧
  tryNumber (VUndef : val) = VUndef ∧ tryNumber (VNull : val) = VNull ∧
  (∀ b : bool, tryNumber (VBool b : val) = VBool b) ∧
  tryNumber (VStr "" : val) = VStr "".
Proof.
  split_and!; try done.
  - unfold tryNumber. destruct (isNumber v) eqn:Hv.
    + by rewrite (isNumber_coerced v Hv).
    + by rewrite Hv.
  - unfold tryNumber, isNumber. simpl. by rewrite andb_false_r.
Qed.

(** ** The cells of a normalized data row *)

Lemma dataRow_loop_other (row : obj) (dict : list (string * entry)) (acc out : obj) (k : string) :
  k ∉ dict.*1 → reduceM (dataRow_step row) dict acc = Ok out → out !! k = acc !! k.
Proof.
  revert acc. induction dict as [|[key e] dict IH]; intros acc Hk; cbn [reduceM].
  - by intros [= <-].
  - rewrite fmap_cons, not_elem_of_cons in Hk. destruct Hk as [Hne Hk].
    destruct (dataRow_step row acc (key, e)) as [acc'|] eqn:Hstep; simpl; [|done].
    intros Hout. rewrite (IH _ Hk Hout).
    unfold dataRow_step in Hstep.
    destruct (isNumber _); [injection Hstep as <-; by apply lookup_insert_ne|].
    case_bool_decide.
    + destruct (call_toLowerCase _); simpl in Hstep; [|done].
      injection Hstep as <-. by apply lookup_insert_ne.
    + injection Hstep as <-. by apply lookup_insert_ne.
Qed.

Lemma dataRow_step_cell (row acc acc' : obj) (key : string) (e : entry) :
  dataRow_step row acc (key, e) = Ok acc' →
  (isNumber (get row (manroland e)) = true →
     acc' !! key = Some (VNum (to_number (get row (manroland e))))) ∧
  (isNumber (get row (manroland e)) = false → key ≠ "color" →
     acc' !! key = Some (get row (manroland e))) ∧
  (isNumber (get row (manroland e)) = false → key = "color" →
     ∃ s : string, get row (manroland e) = VStr s ∧
       acc' !! key = Some (VStr (toLowerCase s))).
Proof.
  unfold dataRow_step. destruct (isNumber _).
  - intros [= <-]. split_and!; try done. intros _. apply lookup_insert_eq.
  - case_bool_decide as Hcolor.
    + destruct (get row (manroland e)) as [| | | |s]; simpl; try done.
      intros [= <-]. split_and!; try done.
      intros _ _. exists s. split; [done | apply lookup_insert_eq].
    + intros [= <-]. split_and!; try done. intros _ _. apply lookup_insert_eq.
Qed.

Lemma dataRow_loop_cell (row : obj) (dict : list (string * entry)) (acc out : obj)
    (key : string) (e : entry) :
  NoDup dict.*1 → (key, e) ∈ dict → reduceM (dataRow_step row) dict acc = Ok out →
  ∃ acc0 acc' : obj, dataRow_step row acc0 (key, e) = Ok acc' ∧ out !! key = acc' !! key.
Proof.
  revert acc. induction dict as [|[k0 e0] dict IH]; intros acc Hnodup Hin; cbn [reduceM].
  - by apply elem_of_nil in Hin.
  - rewrite fmap_cons in Hnodup. apply NoDup_cons in Hnodup as [Hfresh Hnodup].
    destruct (dataRow_step row acc (k0, e0)) as [acc'|] eqn:Hstep; simpl; [|done].
    intros Hout. apply elem_of_cons in Hin as [[= -> ->] | Hin].
    + exists acc, acc'. split; [done|]. by eapply dataRow_loop_other.
    + by eapply IH.
Qed.

(** X8. In the record that [normalizeDataRow] returns, a logical field holds
    the number that its source cell stands for when the cell is
    number-like (the colour too); otherwise the colour holds the cell in
    lower case and any other field holds the cell as it is, [undefined]
    when the row has no such column. *)
Theorem normalizeDataRow_cells (row : obj) (dict : list (string * entry)) (out : obj)
    (key : string) (e : entry) :
  NoDup (getKeys dict) → (key, e) ∈ dict → normalizeDataRow row dict = Ok out →
  (isNumber (get row (manroland e)) = true →
     out !! key = Some (VNum (to_number (get row (manroland e))))) ∧
  (isNumber (get row (manroland e)) = false → key ≠ "color" →
     out !! key = Some (get row (manroland e))) ∧
  (isNumber (get row (manroland e)) = false → key = "color" →
     ∃ s : string, get row (manroland e) = VStr s ∧
       out !! key = Some (VStr (toLowerCase s))).
Proof.
  intros Hnodup Hin Hout.
  destruct (dataRow_loop_cell _ _ _ _ _ _ Hnodup Hin Hout) as (acc0 & acc' & Hstep & ->).
  by eapply dataRow_step_cell.
Qed.

Lemma dataRow_loop_returns (row : obj) (dict : list (string * entry)) (acc : obj) :
  (∀ e : entry, ("color", e) ∈ dict →
     isNumber (get row (manroland e)) = true ∨ ∃ s : string, get row (manroland e) = VStr s) →
  ∃ out : obj, reduceM (dataRow_step row) dict acc = Ok out.
Proof.
  revert acc. induction dict as [|[key e] dict IH]; intros acc Hcolor; cbn [reduceM].
  - by exists acc.
  - assert (Hstep : ∃ acc' : obj, dataRow_step row acc (key, e) = Ok acc').
    { unfold dataRow_step. destruct (isNumber _) eqn:Hnum; [by eexists|].
      case_bool_decide as Hkey; [|by eexists].
      subst key. destruct (Hcolor e) as [Hn | [s Hs]]; [by left | congruence |].
      rewrite Hs. simpl. by eexists. }
    destruct Hstep as [acc' ->]. simpl. apply IH.
    intros e' He'. apply Hcolor. by right.
Qed.

(** X9. [normalizeDataRow] returns a record whenever the cell of every
    entry named [color] is number-like or a string; so it always does for a
    section that does not declare [color]. *)
Theorem normalizeDataRow_returns (row : obj) (dict : list (string * entry)) :
  (∀ e : entry, ("color", e) ∈ dict →
     isNumber (get row (manroland e)) = true ∨ ∃ s : string, get row (manroland e) = VStr s) →
  ∃ out : obj, normalizeDataRow row dict = Ok out.
Proof. apply dataRow_loop_returns. Qed.

(** ** The fields of the normalized metadata *)

Lemma projectMeta_loop_other (input : obj) (dict : list (string * entry)) (init : obj) (k : string) :
  k ∉ dict.*1 →
  foldl (λ (output : obj) '(key, e), <[key := get input (manroland e)]> output) init dict !! k
  = init !! k.
Proof.
  revert init. induction dict as [|[key e] dict IH]; intros init Hk; simpl; [done|].
  rewrite fmap_cons, not_elem_of_cons in Hk. destruct Hk as [Hne Hk].
  rewrite IH by done. by apply lookup_insert_ne.
Qed.

Lemma projectMeta_loop_cell (input : obj) (dict : list (string * entry)) (init : obj)
    (key : string) (e : entry) :
  NoDup dict.*1 → (key, e) ∈ dict →
  foldl (λ (output : obj) '(key, e), <[key := get input (manroland e)]> output) init dict !! key
  = Some (get input (manroland e)).
Proof.
  revert init. induction dict as [|[k0 e0] dict IH]; intros init Hnodup Hin; simpl.
  - by apply elem_of_nil in Hin.
  - rewrite fmap_cons in Hnodup. apply NoDup_cons in Hnodup as [Hfresh Hnodup].
    apply elem_of_cons in Hin as [[= -> ->] | Hin].
    + rewrite projectMeta_loop_other by done. apply lookup_insert_eq.
    + by apply IH.
Qed.

Lemma normalizePaperType_other (output out : obj) (k : string) :
  k ≠ "paperType" → normalizePaperType output = Ok out → out !! k = output !! k.
Proof.
  intros Hk. unfold normalizePaperType.
  destruct (get output "paperType") as [| | | |s]; try (by intros [= <-]).
  destruct (match_paperType s); [|done].
  intros [= <-]. by apply lookup_insert_ne.
Qed.

Lemma normalizeSheet_other (output : obj) (k : string) :
  k ≠ "sheet" → normalizeSheet output !! k = output !! k.
Proof.
  intros Hk. unfold normalizeSheet.
  destruct (get output "sheet"); try done. by apply lookup_insert_ne.
Qed.

(** X10. In the record that [normalizeMeta] returns, every logical field
    other than [paperType] and [sheet] holds the value that the input has
    under the field's source column, [undefined] when the input has no such
    column; a field that is not a string is passed on as it is in any case. *)
Theorem normalizeMeta_fields (input : obj) (dict : list (string * entry)) (out : obj)
    (key : string) (e : entry) :
  NoDup (getKeys dict) → (key, e) ∈ dict → normalizeMeta input dict = Ok out →
  (key ≠ "paperType" → key ≠ "sheet" → out !! key = Some (get input (manroland e))) ∧
  ((∀ s : string, get input (manroland e) ≠ VStr s) →
     out !! key = Some (get input (manroland e))).
Proof.
  intros Hnodup Hin. unfold normalizeMeta.
  pose proof (projectMeta_loop_cell input dict ∅ key e Hnodup Hin) as Hcell.
  fold (projectMeta input dict) in Hcell.
  destruct (normalizePaperType (projectMeta input dict)) as [o|] eqn:Hp; simpl; [|done].
  intros [= <-]. split.
  - intros Hpaper Hsheet.
    by rewrite normalizeSheet_other, (normalizePaperType_other _ _ _ Hpaper Hp).
  - intros Hnostr.
    assert (Ho : o !! key = Some (get input (manroland e))).
    { destruct (decide (key = "paperType")) as [->|Hpaper];
        [|by rewrite (normalizePaperType_other _ _ _ Hpaper Hp)].
      unfold normalizePaperType in Hp. rewrite (get_lookup _ _ _ Hcell) in Hp.
      destruct (get input (manroland e)) as [| | | |s]; try (by injection Hp as <-).
      by destruct (Hnostr s). }
    destruct (decide (key = "sheet")) as [->|Hsheet];
      [|by rewrite normalizeSheet_other].
    unfold normalizeSheet. rewrite (get_lookup _ _ _ Ho).
    destruct (get input (manroland e)) as [| | | |s]; try done.
    by destruct (Hnostr s).
Qed.

Lemma match_paperType_no_digit (s : string) :
  match_paperType s = None → no_digit s.
Proof.
  induction s as [|c s IH]; simpl.
  - intros _ i d Hd. by destruct i.
  - destruct (is_digit c) eqn:Hc; [done|]. intros Hnone i d Hd.
    destruct i as [|i]; simpl in Hd; [congruence | by eapply IH].
Qed.

(** X11. The one way in which [normalizeMeta] fails is the [TypeError] on a
    [paperType] string without a digit: on any other input it returns. *)
Theorem normalizeMeta_throws_only (input : obj) (dict : list (string * entry)) (e : exn) :
  normalizeMeta input dict = Throw e →
  e = TypeError ∧
  ∃ s : string, get (projectMeta input dict) "paperType" = VStr s ∧ no_digit s.
Proof.
  unfold normalizeMeta, normalizePaperType.
  destruct (get (projectMeta input dict) "paperType") as [| | | |s]; simpl; try done.
  destruct (match_paperType s) eqn:Hm; simpl; [done|].
  intros [= <-]. split; [done|]. exists s. split; [done|].
  by apply match_paperType_no_digit.
Qed.

End Normalizers.

(** ** The sheet number *)

Lemma trim_start_head (s : string) (c : ascii) (rest : string) :
  trim_start s = String c rest → is_space c = false.
Proof.
  induction s as [|a s IH]; simpl; [done|].
  destruct (is_space a) eqn:Ha; [done|]. by intros [= <- _].
Qed.

Lemma trim_end_head (c : ascii) (s : string) :
  is_space c = false → trim_end (String c s) = String c (trim_end s).
Proof. intros Hc. simpl. rewrite Hc. by destruct (trim_end s). Qed.

Lemma trim_end_last (s pre : string) (c : ascii) :
  trim_end s = pre +:+ String c EmptyString → is_space c = false.
Proof.
  revert pre. induction s as [|a s IH]; intros pre; simpl.
  - by destruct pre.
  - destruct (trim_end s) as [|b u] eqn:Hs.
    + destruct (is_space a) eqn:Ha; [by destruct pre|].
      destruct pre as [|p pre]; simpl; [by intros [= <-] | by destruct pre].
    + destruct pre as [|p pre]; simpl; [done|].
      intros [= _ Hrest]. by eapply IH.
Qed.

Lemma no_hyphen_tail (c : ascii) (s : string) :
  no_hyphen (String c s) → c ≠ "-"%char ∧ no_hyphen s.
Proof.
  intros Hno. split.
  - by apply (Hno 0%nat).
  - intros i d Hd. by apply (Hno (S i)).
Qed.

Lemma replace_hyphen_none (s : string) : no_hyphen s → replace_hyphen s = s.
Proof.
  induction s as [|c s IH]; intros Hno; simpl; [done|].
  apply no_hyphen_tail in Hno as [Hc Hno].
  destruct (Ascii.eqb_spec c "-"); [done|]. by rewrite IH.
Qed.

Lemma replace_hyphen_first (pre post : string) :
  no_hyphen pre → replace_hyphen (pre +:+ String "-" post) = pre +:+ post.
Proof.
  induction pre as [|c pre IH]; intros Hno; simpl; [done|].
  apply no_hyphen_tail in Hno as [Hc Hno].
  destruct (Ascii.eqb_spec c "-"); [done|]. by rewrite IH.
Qed.

Section Sheet.
Context {number : Type} `{!JsNumber number}.

Abbreviation obj := (gmap string (value number)).

(** X12. When the projected [sheet] is a string, [normalizeMeta] replaces it
    by that string without its first hyphen (a later hyphen stays) and
    without white space at either end. *)
Theorem normalizeMeta_sheet (input : obj) (dict : list (string * entry)) (out : obj)
    (s : string) :
  get (projectMeta input dict) "sheet" = VStr s → normalizeMeta input dict = Ok out →
  ∃ t : string,
    get out "sheet" = VStr t ∧
    (∀ (c : ascii) (rest : string), t = String c rest → is_space c = false) ∧
    (∀ (pre : string) (c : ascii), t = pre +:+ String c EmptyString → is_space c = false) ∧
    (∀ pre post : string,
       s = pre +:+ String "-" post → no_hyphen pre → t = trim (pre +:+ post)) ∧
    (no_hyphen s → t = trim s).
Proof.
  intros Hs. unfold normalizeMeta.
  destruct (normalizePaperType (projectMeta input dict)) as [o|] eqn:Hp; simpl; [|done].
  intros [= <-].
  assert (Ho : get o "sheet" = VStr s).
  { unfold get in *. by rewrite (normalizePaperType_other _ _ "sheet" ltac:(done) Hp). }
  unfold normalizeSheet. rewrite Ho, get_insert_eq.
  exists (trim (replace_hyphen s)). split_and!; [done | | | |].
  - intros c rest Ht. unfold trim in Ht.
    destruct (trim_start (replace_hyphen s)) as [|a u] eqn:Hstart; [done|].
    pose proof (trim_start_head _ _ _ Hstart) as Ha.
    rewrite (trim_end_head _ _ Ha) in Ht. by injection Ht as <- _.
  - intros pre c Ht. by eapply trim_end_last.
  - intros pre post -> Hno. by rewrite replace_hyphen_first.
  - intros Hno. by rewrite replace_hyphen_none.
Qed.

End Sheet.

Section Rows.
Context {number : Type} `{!JsNumber number}.

Abbreviation val := (value number).
Abbreviation obj := (gmap string (value number)).
Abbreviation heap := (gmap positive (@cell number)).

(** ** The secondary-colour expander *)

Lemma normalizeSecondaryColorRow_cons (row : obj) (color : string) (e : lab_entry)
    (dict : list (string * lab_entry)) :
  normalizeSecondaryColorRow row ((color, e) :: dict)
  = if all_act_truthy (secondary_candidate row color e)
    then secondary_candidate row color e :: normalizeSecondaryColorRow row dict
    else normalizeSecondaryColorRow row dict.
Proof. reflexivity. Qed.

Lemma secondary_candidate_fields (row : obj) (color : string) (e : lab_entry) :
  get (secondary_candidate row color e) "colorName" = VStr color ∧
  get (secondary_candidate row color e) "color" = VStr (toLowerCase color) ∧
  get (secondary_candidate row color e) "act_L" = tryNumber (get row (manroland (act_L e))) ∧
  get (secondary_candidate row color e) "act_a" = tryNumber (get row (manroland (act_a e))) ∧
  get (secondary_candidate row color e) "act_b" = tryNumber (get row (manroland (act_b e))) ∧
  dom (secondary_candidate row color e)
  = ({[ "colorName"; "color"; "act_L"; "act_a"; "act_b" ]} : gset string).
Proof.
  unfold secondary_candidate, get. split_and!.
  - by rewrite !lookup_insert_ne, lookup_insert_eq by done.
  - by rewrite !lookup_insert_ne, lookup_insert_eq by done.
  - by rewrite !lookup_insert_ne, lookup_insert_eq by done.
  - by rewrite !lookup_insert_ne, lookup_insert_eq by done.
  - by rewrite lookup_insert_eq.
  - rewrite !dom_insert_L, dom_empty_L. set_solver.
Qed.

(** X13. [normalizeSecondaryColorRow] emits the record of a derived colour
    exactly when the three values read for it, after number coercion, are
    all truthy; the records come in the order of the dictionary, at most one
    per derived colour. *)
Theorem normalizeSecondaryColorRow_emits (row : obj) (dict : list (string * lab_entry)) :
  (∀ r : obj,
     r ∈ normalizeSecondaryColorRow row dict ↔
     ∃ (color : string) (e : lab_entry),
       (color, e) ∈ dict ∧ r = secondary_candidate row color e ∧
       truthy (tryNumber (get row (manroland (act_L e)))) = true ∧
       truthy (tryNumber (get row (manroland (act_a e)))) = true ∧
       truthy (tryNumber (get row (manroland (act_b e)))) = true) ∧
  (λ r : obj, get r "colorName") <$> normalizeSecondaryColorRow row dict
    `sublist_of` (λ color : string, VStr color : val) <$> getKeys dict.
Proof.
  split.
  - intros r. induction dict as [|[color e] dict IH].
    + split; [by intros ?%elem_of_nil|]. by intros (? & ? & ?%elem_of_nil & _).
    + rewrite normalizeSecondaryColorRow_cons.
      destruct (secondary_candidate_fields row color e) as (_ & _ & HL & Ha & Hb & _).
      destruct (all_act_truthy (secondary_candidate row color e)) eqn:Hall;
        unfold all_act_truthy in Hall; rewrite HL, Ha, Hb in Hall.
      * apply andb_true_iff in Hall as [Hall Htb]. apply andb_true_iff in Hall as [HtL Hta].
        rewrite elem_of_cons, IH. split.
        -- intros [-> | (c & d & Hin & ?)].
           ++ exists color, e. split_and!; try done. by left.
           ++ exists c, d. split; [by right | done].
        -- intros (c & d & Hin & Hr & ?). apply elem_of_cons in Hin as [[= -> ->] | Hin].
           ++ by left.
           ++ right. by exists c, d.
      * rewrite IH. split.
        -- intros (c & d & Hin & ?). exists c, d. split; [by right | done].
        -- intros (c & d & Hin & Hr & HtL & Hta & Htb).
           apply elem_of_cons in Hin as [[= -> ->] | Hin]; [|by exists c, d].
           by rewrite HtL, Hta, Htb in Hall.
  - induction dict as [|[color e] dict IH]; [done|].
    rewrite normalizeSecondaryColorRow_cons. unfold getKeys in *. rewrite !fmap_cons.
    destruct (all_act_truthy _).
    + rewrite fmap_cons.
      destruct (secondary_candidate_fields row color e) as (-> & _).
      by apply sublist_skip.
    + by apply sublist_cons.
Qed.

(** X14. A secondary-colour row in the data section adds, for each derived
    colour that is emitted, one record with the five fields of the expander
    and the three fields [pUnitNo], [measuringNo] and [zoneNo]; the latter
    hold what the normalized data row of the same cells holds, and the
    three [act] values are truthy. *)
Theorem onData_secondary_row (D : dictionary) (st st' : state) (row : list val) :
  st_isData st = true → skip row = false → isSecondaryColorRow row = true →
  onData D st row = Ok st' →
  ∃ (out : obj) (new : list obj),
    normalizeDataRow (mapToHeaders row (st_headers st)) (data D) = Ok out ∧
    st_values st' = st_values st ++ new ∧
    (List.length new ≤ List.length (secondary D))%nat ∧
    ∀ r : obj, r ∈ new →
      dom r = ({[ "colorName"; "color"; "act_L"; "act_a"; "act_b";
                  "pUnitNo"; "measuringNo"; "zoneNo" ]} : gset string) ∧
      get r "pUnitNo" = get out "pUnitNo" ∧
      get r "measuringNo" = get out "measuringNo" ∧
      get r "zoneNo" = get out "zoneNo" ∧
      truthy (get r "act_L") = true ∧ truthy (get r "act_a") = true ∧
      truthy (get r "act_b") = true.
Proof.
  intros Hdata Hskip Hsecondary. unfold onData. rewrite Hskip, Hdata.
  destruct (normalizeDataRow _ _) as [out|]; simpl; [|done].
  rewrite Hsecondary. intros [= <-]. simpl.
  eexists out, _. split_and!; [done | done | |].
  - rewrite length_map. unfold normalizeSecondaryColorRow.
    etrans; [apply List.filter_length_le|]. by rewrite length_map.
  - intros r Hr. apply list_elem_of_fmap in Hr as (c & -> & Hc).
    assert (Hother : ∀ k : string, k ≠ "tonVal40" → k ≠ "tonVal50" → k ≠ "tonVal20" →
              get (correctOldTonval out) k = get out k).
    { intros k H40 H50 H20. unfold get.
      destruct (is_undefined (get out "tonVal40")) eqn:Hundef.
      - apply is_undefined_true in Hundef. rewrite (correctOldTonval_old out Hundef).
        by rewrite !lookup_delete_ne, lookup_insert_ne.
      - apply is_undefined_false in Hundef. by rewrite correctOldTonval_new. }
    pose proof Hc as Hc'.
    unfold normalizeSecondaryColorRow in Hc'.
    apply list_elem_of_In, filter_In in Hc' as [Hc' Hall].
    apply andb_true_iff in Hall as [Hall Htb]. apply andb_true_iff in Hall as [HtL Hta].
    apply in_map_iff in Hc' as ([color e] & <- & _).
    fold (secondary_candidate (mapToHeaders row (st_headers st)) color e) in *.
    destruct (secondary_candidate_fields (mapToHeaders row (st_headers st)) color e)
      as (_ & _ & _ & _ & _ & Hdom).
    unfold enhanceSecondaryColorRow. split_and!.
    + rewrite !dom_insert_L, Hdom. set_solver.
    + rewrite !get_insert_ne, get_insert_eq by done. by apply Hother.
    + rewrite get_insert_ne, get_insert_eq by done. by apply Hother.
    + rewrite get_insert_eq. by apply Hother.
    + by rewrite !get_insert_ne by done.
    + by rewrite !get_insert_ne by done.
    + by rewrite !get_insert_ne by done.
Qed.

End Rows.

Section Mapping.
Context {number : Type} `{!JsNumber number}.

Abbreviation val := (value number).
Abbreviation obj := (gmap string (value number)).
Abbreviation heap := (gmap positive (@cell number)).

(** ** The header mapper *)

(** X15. [mapToHeaders] binds the cell at a position to the name of the
    header at that position, unless a later position of the row has a
    header of the same name, in which case the later cell wins. *)
Theorem mapToHeaders_binds (r h : list val) (i : nat) (v : val) :
  r !! i = Some v →
  (∀ j : nat, (i < j < List.length r)%nat →
     to_key (nth_cell h j) ≠ to_key (nth_cell h i)) →
  mapToHeaders r h !! to_key (nth_cell h i) = Some v.
Proof.
  revert i v. induction r as [|x r IH] using rev_ind; intros i v Hi Hlater; [done|].
  rewrite mapToHeaders_snoc.
  destruct (decide (i = List.length r)) as [->|Hne].
  - rewrite lookup_app_r, Nat.sub_diag in Hi by lia. injection Hi as ->.
    apply lookup_insert_eq.
  - assert (Hlt : (i < List.length r)%nat).
    { apply lookup_lt_Some in Hi. rewrite length_app in Hi. simpl in Hi. lia. }
    rewrite lookup_app_l in Hi by done.
    rewrite lookup_insert_ne.
    + apply IH; [done|]. intros j Hj. apply Hlater. rewrite length_app. simpl. lia.
    + apply Hlater. rewrite length_app. simpl. lia.
Qed.

(** X16. On the heap, [mapToHeaders] called with two arrays returns a
    reference to a new object that holds what the function computes on the
    contents of the arrays; called with anything else it fails its
    assertion and changes nothing. *)
Theorem mapToHeaders_heap_outcome (row headers : positive) (σ : heap) :
  match σ !! row, σ !! headers with
  | Some (CArr r), Some (CArr h) =>
      fresh (dom σ) ∉ dom σ ∧
      mapToHeaders_heap row headers σ
      = (Ok (fresh (dom σ)), <[fresh (dom σ) := CObj (mapToHeaders r h)]> σ)
  | _, _ => mapToHeaders_heap row headers σ = (Throw AssertionError, σ)
  end.
Proof.
  destruct (σ !! row) as [[r|o]|] eqn:Hrow.
  - destruct (σ !! headers) as [[h|o]|] eqn:Hheaders.
    + split; [apply is_fresh | by apply mapToHeaders_heap_result].
    + unfold mapToHeaders_heap, isArray. by rewrite Hrow, Hheaders.
    + unfold mapToHeaders_heap, isArray. by rewrite Hrow, Hheaders.
  - unfold mapToHeaders_heap, isArray. by rewrite Hrow.
  - unfold mapToHeaders_heap, isArray. by rewrite Hrow.
Qed.

(** ** Corrected data rows *)

(** X17. A data row that has gone through [normalizeDataRow] and
    [correctOldTonval] has all the logical keys of the dictionary section
    when its [tonVal40] is defined; otherwise it has them without
    [tonVal50] and [tonVal20], and with [tonVal40]. *)
Theorem corrected_row_keys (row : obj) (dict : list (string * entry)) (out : obj) :
  normalizeDataRow row dict = Ok out →
  (get out "tonVal40" ≠ VUndef →
     dom (correctOldTonval out) = list_to_set (getKeys dict)) ∧
  (get out "tonVal40" = VUndef →
     dom (correctOldTonval out)
     = ({[ "tonVal40" ]} ∪ list_to_set (getKeys dict)) ∖ {[ "tonVal50"; "tonVal20" ]}).
Proof.
  intros Hout. pose proof (normalizeDataRow_dom _ _ _ Hout) as Hdom. split.
  - intros Hdef. by rewrite correctOldTonval_new.
  - intros Hundef. rewrite (correctOldTonval_old out Hundef).
    rewrite !dom_delete_L, dom_insert_L, Hdom. unfold getKeys. set_solver.
Qed.

End Mapping.

(** ** The machine name *)

Lemma match_machine_head (s m : string) :
  head (match_machine s) = Some m →
  ∃ i : nat, machine_at s i = true ∧ substring i 4 s = m.
Proof.
  induction s as [|c s IH]; [done|].
  destruct (machine_at (String c s) 0) eqn:H0.
  - intros Hm. exists 0%nat. split; [done|].
    rewrite (match_machine_first _ 0%nat H0) in Hm by lia. by injection Hm.
  - rewrite (match_machine_skip _ _ H0). intros Hm.
    destruct (IH Hm) as (i & Hi & Hsub). exists (S i). by rewrite machine_at_S.
Qed.

Lemma match_machine_empty (s : string) :
  match_machine s = [] → ∀ i : nat, machine_at s i = false.
Proof.
  induction s as [|c s IH]; intros Hm i.
  - unfold machine_at. by destruct i.
  - destruct (machine_at (String c s) 0) eqn:H0.
    + pose proof (match_machine_first _ 0%nat H0 ltac:(lia)) as Hhead.
      by rewrite Hm in Hhead.
    + rewrite (match_machine_skip _ _ H0) in Hm.
      destruct i as [|i]; [done|]. rewrite machine_at_S. by apply IH.
Qed.

Lemma machine_at_shape (s : string) (i : nat) :
  machine_at s i = true →
  ∃ r a b c : ascii,
    substring i 4 s = String r (String a (String b (String c EmptyString))) ∧
    is_R r = true ∧ is_digit a = true ∧ is_digit b = true ∧ is_digit c = true.
Proof.
  revert s. induction i as [|i IH]; intros s.
  - unfold machine_at. simpl.
    destruct s as [|r [|a [|b [|c rest]]]]; simpl; try done.
    intros H. apply andb_true_iff in H as [H Hc]. apply andb_true_iff in H as [H Hb].
    apply andb_true_iff in H as [Hr Ha].
    exists r, a, b, c. split_and!; try done. by destruct rest.
  - destruct s as [|x s]; [done|]. rewrite machine_at_S. simpl. apply IH.
Qed.

(** X18. The machine name is either empty or a piece of the file name that
    consists of an [R] in either case and three digits; it is empty only
    when the file name is absent or has no such piece. *)
Theorem getMachineName_shape (filename : option string) :
  (getMachineName filename = "" ∧
   ∀ s : string, filename = Some s → ∀ i : nat, machine_at s i = false) ∨
  (∃ (s : string) (i : nat) (r a b c : ascii),
     filename = Some s ∧ getMachineName filename = substring i 4 s ∧
     substring i 4 s = String r (String a (String b (String c EmptyString))) ∧
     is_R r = true ∧ is_digit a = true ∧ is_digit b = true ∧ is_digit c = true).
Proof.
  destruct filename as [s|]; [|left; by split].
  unfold getMachineName. case_bool_decide as Hempty.
  - left. split; [done|]. intros ? [= <-] i. subst s. unfold machine_at. by destruct i.
  - destruct (match_machine s) as [|m ms] eqn:Hm.
    + left. split; [done|]. intros ? [= <-]. by apply match_machine_empty.
    + right. destruct (match_machine_head s m) as (i & Hi & Hsub); [by rewrite Hm|].
      destruct (machine_at_shape s i Hi) as (r & a & b & c & Hshape & Hr & Ha & Hb & Hc).
      exists s, i, r, a, b, c. by split_and!.
Qed.

Section Outcome.
Context {number : Type} `{!JsNumber number}.

Abbreviation val := (value number).
Abbreviation obj := (gmap string (value number)).

(** ** What a parse can end in *)

Lemma normalizeDataRow_throws (row : obj) (dict : list (string * entry)) (e : exn) :
  normalizeDataRow row dict = Throw e → e = TypeError.
Proof.
  unfold normalizeDataRow. generalize (∅ : obj).
  induction dict as [|p dict IH]; intros acc; cbn [reduceM]; [done|].
  destruct (dataRow_step row acc p) as [acc'|e'] eqn:Hstep; simpl.
  - apply IH.
  - intros [= <-]. by eapply dataRow_step_throws.
Qed.

Lemma onData_throws (D : dictionary) (st : state) (row : list val) (e : exn) :
  onData D st row = Throw e → e = TypeError.
Proof.
  unfold onData. destruct (skip row); [done|].
  destruct (st_isData st); [|by destruct (isHeaderRow row)].
  destruct (normalizeDataRow _ _) as [out|e'] eqn:Hrow; simpl.
  - by destruct (isSecondaryColorRow row).
  - intros [= <-]. by eapply normalizeDataRow_throws.
Qed.

Lemma run_throws (D : dictionary) (rs : list (list val)) (st : state) (e : exn) :
  reduceM (onData D) rs st = Throw e → e = TypeError.
Proof.
  revert st. induction rs as [|row rs IH]; intros st; cbn [reduceM]; [done|].
  destruct (onData D st row) as [st'|e'] eqn:Hstep; simpl.
  - apply IH.
  - intros [= <-]. by eapply onData_throws.
Qed.

Lemma normalizeMeta_throws (input : obj) (dict : list (string * entry)) (e : exn) :
  normalizeMeta input dict = Throw e → e = TypeError.
Proof.
  unfold normalizeMeta, normalizePaperType.
  destruct (get (projectMeta input dict) "paperType") as [| | | |s]; simpl; try done.
  destruct (match_paperType s); simpl; [done|]. by intros [= <-].
Qed.

(** X19. A parse ends in one of two ways: the callback is invoked once and
    no exception escapes, or a [TypeError] escapes and the callback is not
    invoked. The callback is never invoked twice. *)
Theorem parser_outcome_exclusive (D : dictionary) (f : file) :
  (∃ c : cb_call, calls (parser D f) = [c] ∧ uncaught (parser D f) = None) ∨
  (calls (parser D f) = [] ∧ uncaught (parser D f) = Some TypeError).
Proof.
  unfold parser. destruct (filename_or_path f); [|by right].
  destruct (reduceM (onData D) (rows f) initial) as [st|e] eqn:Hrun; [|left; by eexists].
  destruct (upstream_error f); [left; by eexists|].
  case_bool_decide; [left; by eexists|].
  destruct (normalizeMeta _ _) as [nm|e] eqn:Hmeta; [left; by eexists|].
  right. apply normalizeMeta_throws in Hmeta as ->. done.
Qed.

(** X20. A result is delivered only at the end of a stream without error
    whose [values] is not empty, and it carries that [values]. The keys of
    its [meta] are [maker], [machine] and the logical keys of the [meta]
    section; under a key of the section it holds what [normalizeMeta]
    returns, also when that key is [maker] or [machine]. *)
Theorem parser_result_origin (D : dictionary) (f : file) (res : parse_result) :
  calls (parser D f) = [CbResult res] →
  upstream_error f = None ∧
  ∃ (st : state) (nm : obj),
    reduceM (onData D) (rows f) initial = Ok st ∧
    normalizeMeta (st_meta st) (meta D) = Ok nm ∧
    res_values res = st_values st ∧ st_values st ≠ [] ∧
    dom (res_meta res) = {[ "maker"; "machine" ]} ∪ list_to_set (getKeys (meta D)) ∧
    ∀ k : string, k ∈ getKeys (meta D) → res_meta res !! k = nm !! k.
Proof.
  unfold parser. destruct (filename_or_path f); [|done].
  destruct (reduceM (onData D) (rows f) initial) as [st|e] eqn:Hrun; [|done].
  destruct (upstream_error f); [done|].
  case_bool_decide as Hvalues; [done|].
  destruct (normalizeMeta _ _) as [nm|e] eqn:Hmeta; [|done].
  simpl. intros [= <-]. split; [done|]. exists st, nm. simpl.
  pose proof (normalizeMeta_dom _ _ _ Hmeta) as Hdom.
  split_and!; try done.
  - intros Hnil. by rewrite Hnil in Hvalues.
  - rewrite dom_union_L, dom_insert_L, dom_singleton_L, Hdom. unfold getKeys. set_solver.
  - intros k Hk.
    assert (Hin : k ∈ dom nm) by (rewrite Hdom; unfold getKeys in Hk; set_solver).
    apply elem_of_dom in Hin as [v Hv]. rewrite Hv. by apply lookup_union_Some_l.
Qed.

(** X21. An error that reaches the callback is the [TypeError] that a row
    handler has thrown, or the error of the pipeline behind rows that were
    all handled, or it is ["InvalidInput"] at the end of a stream without
    error that left [values] empty. *)
Theorem parser_error_origin (D : dictionary) (f : file) (e : exn) :
  calls (parser D f) = [CbError e] →
  (e = TypeError ∧ reduceM (onData D) (rows f) initial = Throw e) ∨
  (upstream_error f = Some e ∧
   ∃ st : state, reduceM (onData D) (rows f) initial = Ok st) ∨
  (upstream_error f = None ∧ e = Error "InvalidInput" ∧
   ∃ st : state, reduceM (onData D) (rows f) initial = Ok st ∧ st_values st = []).
Proof.
  unfold parser. destruct (filename_or_path f); [|done].
  destruct (reduceM (onData D) (rows f) initial) as [st|e'] eqn:Hrun.
  - destruct (upstream_error f).
    + intros [= <-]. right. left. split; [done | by exists st].
    + case_bool_decide as Hvalues.
      * intros [= <-]. right. right. split_and!; try done. exists st. split; [done|].
        by destruct (st_values st).
      * by destruct (normalizeMeta _ _).
  - intros [= <-]. left. split; [by eapply run_throws | done].
Qed.

(** X22. No result without a header row: when a result is delivered, the
    stream has a row that is not skipped and starts with the header marker,
    every row before it is skipped or a line of metadata, and at least one
    row follows it. *)
Theorem parser_result_needs_header (D : dictionary) (f : file) (res : parse_result) :
  calls (parser D f) = [CbResult res] →
  ∃ (pre : list (list val)) (hdr : list val) (post : list (list val)),
    rows f = pre ++ hdr :: post ∧ Forall prelude_row pre ∧
    skip hdr = false ∧ isHeaderRow hdr = true ∧ post ≠ [].
Proof.
  unfold parser. destruct (filename_or_path f); [|done].
  destruct (reduceM (onData D) (rows f) initial) as [st|e] eqn:Hrun; [|done].
  destruct (upstream_error f); [done|].
  case_bool_decide as Hvalues; [done|].
  destruct (normalizeMeta _ _) as [nm|e] eqn:Hmeta; [|done].
  intros _.
  destruct (run_to_header D (rows f) initial st eq_refl Hrun)
    as [(_ & _ & _ & Hv) | (pre & hdr & post & Hrows & Hpre & Hskip & Hheader & _)].
  - by rewrite Hv in Hvalues.
  - exists pre, hdr, post. split_and!; try done. intros ->.
    rewrite Hrows, reduceM_app in Hrun.
    destruct (run_prelude D pre initial eq_refl Hpre) as (st1 & Hrun1 & Hdata1 & Hv1 & _).
    rewrite Hrun1 in Hrun. simpl in Hrun. cbn [reduceM] in Hrun.
    rewrite onData_header in Hrun by done. simpl in Hrun. injection Hrun as <-.
    simpl in Hvalues. by rewrite Hv1 in Hvalues.
Qed.

End Outcome.

(** * The further statements on concrete inputs *)

Ltac prelude_rows :=
  repeat (apply Forall_cons_2; [(left; reflexivity) || (right; reflexivity)|]);
  apply Forall_nil_2.

Lemma parser_headerless_invalid_witness :
  parser DICTIONARY headerless_file
  = {| calls := [CbError (Error "InvalidInput")]; uncaught := None |}.
Proof.
  apply (parser_headerless_invalid DICTIONARY headerless_file "R508_13-02-06.csv");
    [reflexivity | | reflexivity].
  unfold headerless_file. cbn [rows]. prelude_rows.
Defined.

Lemma driver_frozen_after_header_witness :
  st_isData after_primary_rows = true ∧
  st_meta after_primary_rows = st_meta after_header ∧
  st_headers after_primary_rows = header_row ∧
  st_values after_header `prefix_of` st_values after_primary_rows.
Proof.
  apply (driver_frozen_after_header DICTIONARY primary_rows after_header after_primary_rows).
  - reflexivity.
  - vm_compute. reflexivity.
Defined.

Lemma driver_primary_count_witness :
  List.length (st_values after_primary_rows) = 2%nat.
Proof.
  apply (driver_primary_count DICTIONARY primary_rows after_header after_primary_rows).
  - reflexivity.
  - repeat constructor.
  - vm_compute. reflexivity.
Defined.

Lemma driver_header_once_witness :
  ∃ (pre : list (list (value int_number))) (hdr : list (value int_number))
    (post : list (list (value int_number))),
    meta_stream = pre ++ hdr :: post ∧ Forall prelude_row pre ∧
    skip hdr = false ∧ isHeaderRow hdr = true ∧ st_headers meta_final = hdr.
Proof.
  assert (Hrun : reduceM (onData DICTIONARY) meta_stream initial = Ok meta_final)
    by (vm_compute; reflexivity).
  apply (proj1 (driver_header_once DICTIONARY meta_stream meta_final Hrun)).
  reflexivity.
Defined.

Lemma driver_meta_last_wins_witness :
  st_meta meta_final !! "Job No" = Some (str "12-1119").
Proof.
  apply (driver_meta_last_wins DICTIONARY
           [ [str "Job No"; str "12-0001"]; [str "Raster-Percent :"; str "80"] ]
           [ [str "Paper Type"; str "4 (bar)"] ]
           [ header_row; [str "Job No"; str "CYN"; str "3"; str "55"] ]
           [str "Job No"; str "12-1119"] meta_final).
  - prelude_rows.
  - reflexivity.
  - reflexivity.
  - prelude_rows.
  - apply Forall_cons_2; [|apply Forall_nil_2]. intros _. discriminate.
  - intros hdr rest' [= <- <-]. split; reflexivity.
  - vm_compute. reflexivity.
Defined.

Lemma normalizeDataRow_cells_witness :
  normalizeDataRow test_data_row test_data_dict = Ok test_data_out ∧
  test_data_out !! "measuringUnit" = Some (VNum (IInt 1)) ∧
  test_data_out !! "foo" = Some (str "Bar") ∧
  test_data_out !! "color" = Some (str "blk") ∧
  gruen_out !! "color"
  = Some (str (String "g" (String "r" (String "252" (String "n" EmptyString))))).
Proof.
  assert (Hnodup : NoDup (getKeys test_data_dict)).
  { compute_done. }
  assert (Hout : normalizeDataRow test_data_row test_data_dict = Ok test_data_out)
    by (vm_compute; reflexivity).
  split; [exact Hout|]. split_and!.
  - apply (proj1 (normalizeDataRow_cells _ _ _ "measuringUnit" {| manroland := "Measuring Unit" |}
                    Hnodup ltac:(set_solver) Hout)).
    reflexivity.
  - apply (proj1 (proj2 (normalizeDataRow_cells _ _ _ "foo" {| manroland := "Foo" |}
                    Hnodup ltac:(set_solver) Hout))); [reflexivity | discriminate].
  - destruct (proj2 (proj2 (normalizeDataRow_cells _ _ _ "color" {| manroland := "ColorName" |}
                    Hnodup ltac:(set_solver) Hout)) eq_refl eq_refl) as (s & Hs & Hcolor).
    injection Hs as <-. exact Hcolor.
  - assert (Hgruen : normalizeDataRow gruen_row test_data_dict = Ok gruen_out)
      by (vm_compute; reflexivity).
    destruct (proj2 (proj2 (normalizeDataRow_cells _ _ _ "color" {| manroland := "ColorName" |}
                    Hnodup ltac:(set_solver) Hgruen)) eq_refl eq_refl) as (s & Hs & Hcolor).
    injection Hs as <-. exact Hcolor.
Defined.

Lemma normalizeDataRow_returns_witness :
  ∃ out : gmap string (value int_number),
    normalizeDataRow test_data_row test_data_dict = Ok out.
Proof.
  apply normalizeDataRow_returns.
  intros e He. right. exists "BLK".
  apply elem_of_cons in He as [He | He]; [by injection He as -> |].
  apply elem_of_cons in He as [He | He]; [discriminate He|].
  apply elem_of_cons in He as [He | He]; [discriminate He|].
  by apply elem_of_nil in He.
Defined.

Lemma normalizeMeta_fields_witness :
  normalizeMeta test_meta_input test_meta_dict = Ok test_meta_out ∧
  test_meta_out !! "foo" = Some (str "bar").
Proof.
  assert (Hout : normalizeMeta test_meta_input test_meta_dict = Ok test_meta_out)
    by (vm_compute; reflexivity).
  split; [exact Hout|].
  apply (proj1 (normalizeMeta_fields test_meta_input test_meta_dict test_meta_out "foo"
                  {| manroland := "Foo" |} ltac:(compute_done) ltac:(apply list_elem_of_here) Hout));
    discriminate.
Defined.

Lemma normalizeMeta_throws_only_witness :
  ∃ s : string,
    get (projectMeta ({[ "paperType" := str "glossy" ]} : gmap string (value int_number))
           paperType_dict) "paperType" = VStr s ∧
    no_digit s.
Proof.
  apply (normalizeMeta_throws_only ({[ "paperType" := str "glossy" ]}) paperType_dict TypeError).
  reflexivity.
Defined.

Lemma normalizeMeta_sheet_witness :
  (∃ t : string, get sheet_out "sheet" = VStr t ∧ t = "1") ∧
  (∃ t : string, get nbsp_sheet_out "sheet" = VStr t ∧ t = "5" ∧
     ∀ (c : ascii) (rest : string), t = String c rest → is_space c = false).
Proof.
  split.
  - assert (Hout : normalizeMeta ({[ "sheet" := str "1 - " ]} : gmap string (value int_number))
                     sheet_dict = Ok sheet_out) by (vm_compute; reflexivity).
    assert (Hs : get (projectMeta ({[ "sheet" := str "1 - " ]} : gmap string (value int_number))
                        sheet_dict) "sheet" = VStr "1 - ") by reflexivity.
    destruct (normalizeMeta_sheet _ sheet_dict sheet_out "1 - " Hs Hout)
      as (t & Ht & _ & _ & Hfirst & _).
    exists t. split; [exact Ht|].
    apply (Hfirst "1 " " "); [reflexivity|].
    intros i c Hc. destruct i as [|[|i]]; simpl in Hc; [injection Hc as <-..|]; discriminate.
  - assert (Hout : normalizeMeta ({[ "sheet" := str nbsp_sheet ]} : gmap string (value int_number))
                     sheet_dict = Ok nbsp_sheet_out) by (vm_compute; reflexivity).
    assert (Hs : get (projectMeta ({[ "sheet" := str nbsp_sheet ]} : gmap string (value int_number))
                        sheet_dict) "sheet" = VStr nbsp_sheet) by reflexivity.
    destruct (normalizeMeta_sheet _ sheet_dict nbsp_sheet_out nbsp_sheet Hs Hout)
      as (t & Ht & Hhead & _ & Hfirst & _).
    exists t. split_and!; [exact Ht | | exact Hhead].
    apply (Hfirst (String "160" (String "5" EmptyString)) (String "160" EmptyString));
      [reflexivity|].
    intros i c Hc. destruct i as [|[|i]]; simpl in Hc; [injection Hc as <-..|]; discriminate.
Defined.

Lemma normalizeSecondaryColorRow_emits_witness :
  secondary_CM ∈ normalizeSecondaryColorRow secondary_row (secondary DICTIONARY).
Proof.
  apply (proj1 (normalizeSecondaryColorRow_emits secondary_row (secondary DICTIONARY))).
  exists "CM", (lab "L-Value T(C+M) - Solid Tone" "a-Value T(C+M) - Solid Tone"
                    "b-Value T(C+M) - Solid Tone").
  split_and!; [apply list_elem_of_here | vm_compute; reflexivity | reflexivity..].
Defined.

Lemma onData_secondary_row_witness :
  ∃ new : list (gmap string (value int_number)),
    st_values after_secondary_cells = new ∧ (List.length new ≤ 3)%nat ∧
    ∀ r : gmap string (value int_number), r ∈ new →
      get r "zoneNo" = VNum (IInt 3) ∧ truthy (get r "act_L") = true.
Proof.
  assert (Hstep : onData DICTIONARY after_secondary_header secondary_cells
                  = Ok after_secondary_cells) by (vm_compute; reflexivity).
  destruct (onData_secondary_row DICTIONARY after_secondary_header after_secondary_cells
              secondary_cells eq_refl eq_refl eq_refl Hstep)
    as (out & new & Hout & Hvalues & Hlen & Hnew).
  exists new. split_and!; [exact Hvalues | exact Hlen |].
  intros r Hr. destruct (Hnew r Hr) as (_ & _ & _ & Hzone & HL & _).
  split; [|exact HL]. rewrite Hzone.
  assert (Hcell : out !! "zoneNo" = Some (VNum (IInt 3))).
  { replace out with (match normalizeDataRow (mapToHeaders secondary_cells
        (st_headers after_secondary_header)) (data DICTIONARY) with
        | Ok o => o | Throw _ => ∅ end) by (by rewrite Hout).
    vm_compute. reflexivity. }
  unfold get. by rewrite Hcell.
Defined.

Lemma mapToHeaders_binds_witness :
  mapToHeaders [str "1"; str "2"; str "3"] [str "foo"; str "bar"; str "foo"] !! "foo"
  = Some (str "3") ∧
  mapToHeaders [str "1"; str "2"; str "3"] [str "foo"; str "bar"; str "foo"] !! "bar"
  = Some (str "2").
Proof.
  split.
  - apply (mapToHeaders_binds [str "1"; str "2"; str "3"] [str "foo"; str "bar"; str "foo"] 2);
      [reflexivity|]. simpl. intros j Hj. lia.
  - apply (mapToHeaders_binds [str "1"; str "2"; str "3"] [str "foo"; str "bar"; str "foo"] 1);
      [reflexivity|]. simpl. intros j Hj.
    assert (j = 2%nat) as -> by lia. discriminate.
Defined.

Lemma mapToHeaders_heap_outcome_witness :
  mapToHeaders_heap 1 2 two_arrays
  = (Ok (fresh (dom two_arrays)),
     <[fresh (dom two_arrays) := CObj (mapToHeaders [VNum (IInt 1); VNum (IInt 2)]
                                          [str "foo"; str "bar"])]> two_arrays) ∧
  mapToHeaders_heap 1 3 two_arrays = (Throw AssertionError, two_arrays).
Proof.
  split.
  - exact (proj2 (mapToHeaders_heap_outcome 1 2 two_arrays)).
  - exact (mapToHeaders_heap_outcome 1 3 two_arrays).
Defined.

Lemma corrected_row_keys_witness :
  dom (correctOldTonval first_row_out)
  = ({[ "tonVal40" ]} ∪ list_to_set (getKeys (data DICTIONARY)))
    ∖ {[ "tonVal50"; "tonVal20" ]}.
Proof.
  assert (Hout : normalizeDataRow
                   (mapToHeaders [str "1"; str "CYN"; str "3"; str "55"] header_row)
                   (data DICTIONARY) = Ok first_row_out) by (vm_compute; reflexivity).
  apply (proj2 (corrected_row_keys _ _ _ Hout)).
  vm_compute. reflexivity.
Defined.

Lemma getMachineName_shape_witness :
  ∃ (s : string) (i : nat),
    Some "r20-R508-r301-bar.csv" = Some s ∧
    getMachineName (Some "r20-R508-r301-bar.csv") = substring i 4 s.
Proof.
  destruct (getMachineName_shape (Some "r20-R508-r301-bar.csv"))
    as [[Hempty _] | (s & i & r & a & b & c & Hs & Hname & _)].
  - discriminate Hempty.
  - exists s, i. split; [exact Hs | exact Hname].
Defined.

Lemma parser_result_origin_witness :
  upstream_error good_file = None ∧
  res_values good_result ≠ [] ∧
  dom (res_meta good_result)
  = {[ "maker"; "machine" ]} ∪ list_to_set (getKeys (meta DICTIONARY)).
Proof.
  assert (Hcalls : calls (parser DICTIONARY good_file) = [CbResult good_result])
    by (vm_compute; reflexivity).
  destruct (parser_result_origin DICTIONARY good_file good_result Hcalls)
    as (Hend & st & nm & _ & _ & Hvalues & Hnonempty & Hdom & _).
  split_and!; [exact Hend | by rewrite Hvalues | exact Hdom].
Defined.

Lemma parser_error_origin_witness :
  (TypeError = TypeError ∧
   reduceM (onData DICTIONARY) (rows blank_color_file) initial = Throw TypeError) ∨
  (upstream_error blank_color_file = Some TypeError ∧
   ∃ st : @state int_number,
     reduceM (onData DICTIONARY) (rows blank_color_file) initial = Ok st) ∨
  (upstream_error blank_color_file = None ∧ TypeError = Error "InvalidInput" ∧
   ∃ st : @state int_number,
     reduceM (onData DICTIONARY) (rows blank_color_file) initial = Ok st ∧ st_values st = []).
Proof.
  apply (parser_error_origin DICTIONARY blank_color_file TypeError).
  vm_compute. reflexivity.
Defined.

Lemma parser_result_needs_header_witness :
  ∃ (pre : list (list (value int_number))) (hdr : list (value int_number))
    (post : list (list (value int_number))),
    rows good_file = pre ++ hdr :: post ∧ Forall prelude_row pre ∧
    skip hdr = false ∧ isHeaderRow hdr = true ∧ post ≠ [].
Proof.
  apply (parser_result_needs_header DICTIONARY good_file good_result).
  vm_compute. reflexivity.
Defined.
